(** * Group Event Planner: calendar and roster engine

    A shallow embedding of the logic of [src/components/groupEventPlanner.tsx]:
    the month grid ([calendarDays]), the per-day index ([eventsByDate]), the
    day selector ([eventsOnSelectedDate]), the RSVP toggle ([handleRsvp]),
    event creation ([handleAddEvent]) and the form validation
    ([validateForm], [handleSubmit]).

    Conventions of the embedding.
    - A JavaScript [Date] is its time value: milliseconds since the epoch, or
      the Invalid Date (NaN).  Calendar fields follow the ECMAScript
      definitions (Day, TimeWithinDay, DayFromYear, YearFromTime,
      MonthFromTime, DateFromTime, WeekDay, MakeDay, MakeDate, TimeClip).
      Local time is taken with a zero offset, so a local calendar day is a
      UTC day; daylight saving transitions are outside the model.
    - The date-fns functions used by the component are written after their
      implementation in terms of the [Date] setters.  [parseISO], the
      day-key formatter [format _ "yyyy-MM-dd"] and [toISOString] are taken
      as parameters of the component section: the component only relies on
      them being functions.
    - Numbers that the component handles are integers or NaN ([num]).
    - React state is passed explicitly; toasts are returned as a log. *)

From Stdlib Require Import ZArith Lia List String Ascii Sorted Permutation.
From stdpp Require Import gmap strings list pretty.

(** ** ECMAScript time values *)

Module JSDate.
Local Open Scope Z_scope.

Definition msPerDay : Z := 86400000.
Definition maxTime : Z := 8640000000000000.

Definition Day (t : Z) : Z := t / msPerDay.
Definition TimeWithinDay (t : Z) : Z := t mod msPerDay.

Definition DayFromYear (y : Z) : Z :=
  365 * (y - 1970) + (y - 1969) / 4 - (y - 1901) / 100 + (y - 1601) / 400.

Definition DaysInYear (y : Z) : Z :=
  if negb (y mod 4 =? 0) then 365
  else if negb (y mod 100 =? 0) then 366
  else if negb (y mod 400 =? 0) then 365
  else 366.

Definition InLeapYearOf (y : Z) : Z := DaysInYear y - 365.

(** The largest [y] with [DayFromYear y <= d]: an estimate from the mean
    length of the Gregorian year, corrected by at most one. *)
Definition YearFromDay (d : Z) : Z :=
  let y := 1970 + (400 * d) / 146097 in
  if d <? DayFromYear y then y - 1
  else if DayFromYear (y + 1) <=? d then y + 1
  else y.

Definition DayWithinYearOf (d : Z) : Z := d - DayFromYear (YearFromDay d).

(** First day-within-year of month [m] (0 = January), [leap] being 0 or 1. *)
Definition monthStart (m leap : Z) : Z :=
  if m <=? 0 then 0
  else if m =? 1 then 31
  else if m =? 2 then 59 + leap
  else if m =? 3 then 90 + leap
  else if m =? 4 then 120 + leap
  else if m =? 5 then 151 + leap
  else if m =? 6 then 181 + leap
  else if m =? 7 then 212 + leap
  else if m =? 8 then 243 + leap
  else if m =? 9 then 273 + leap
  else if m =? 10 then 304 + leap
  else if m =? 11 then 334 + leap
  else 365 + leap.

Definition MonthFromDay (d : Z) : Z :=
  let w := DayWithinYearOf d in
  let leap := InLeapYearOf (YearFromDay d) in
  if w <? 31 then 0
  else if w <? 59 + leap then 1
  else if w <? 90 + leap then 2
  else if w <? 120 + leap then 3
  else if w <? 151 + leap then 4
  else if w <? 181 + leap then 5
  else if w <? 212 + leap then 6
  else if w <? 243 + leap then 7
  else if w <? 273 + leap then 8
  else if w <? 304 + leap then 9
  else if w <? 334 + leap then 10
  else 11.

Definition DateFromDay (d : Z) : Z :=
  DayWithinYearOf d
  - monthStart (MonthFromDay d) (InLeapYearOf (YearFromDay d)) + 1.

Definition YearFromTime (t : Z) : Z := YearFromDay (Day t).
Definition MonthFromTime (t : Z) : Z := MonthFromDay (Day t).
Definition DateFromTime (t : Z) : Z := DateFromDay (Day t).
Definition WeekDay (t : Z) : Z := (Day t + 4) mod 7.

Definition MakeDay (year month date : Z) : Z :=
  let ym := year + month / 12 in
  let mn := month mod 12 in
  DayFromYear ym + monthStart mn (InLeapYearOf ym) + date - 1.

Definition MakeTime (h m s ms : Z) : Z :=
  h * 3600000 + m * 60000 + s * 1000 + ms.

Definition MakeDate (day time : Z) : Z := day * msPerDay + time.

(** A [Date] object: a time value or the Invalid Date. *)
Inductive Date : Type :=
| Invalid : Date
| Time (t : Z) : Date.

Definition TimeClip (t : Z) : Date :=
  if maxTime <? Z.abs t then Invalid else Time t.

Definition getTime (d : Date) : option Z :=
  match d with Invalid => None | Time t => Some t end.
Definition getFullYear (d : Date) : option Z :=
  match d with Invalid => None | Time t => Some (YearFromTime t) end.
Definition getMonth (d : Date) : option Z :=
  match d with Invalid => None | Time t => Some (MonthFromTime t) end.
Definition getDate (d : Date) : option Z :=
  match d with Invalid => None | Time t => Some (DateFromTime t) end.
Definition getDay (d : Date) : option Z :=
  match d with Invalid => None | Time t => Some (WeekDay t) end.

Definition setDate (d : Date) (dt : Z) : Date :=
  match d with
  | Invalid => Invalid
  | Time t =>
      TimeClip (MakeDate (MakeDay (YearFromTime t) (MonthFromTime t) dt)
                         (TimeWithinDay t))
  end.

Definition setHours (d : Date) (h m s ms : Z) : Date :=
  match d with
  | Invalid => Invalid
  | Time t => TimeClip (MakeDate (Day t) (MakeTime h m s ms))
  end.

Definition setFullYear (d : Date) (y m dt : Z) : Date :=
  match d with
  | Invalid => TimeClip (MakeDate (MakeDay y m dt) 0)
  | Time t => TimeClip (MakeDate (MakeDay y m dt) (TimeWithinDay t))
  end.

(** [a <= b] and [a < b] on Date objects compare time values; a comparison
    with the Invalid Date is false. *)
Definition date_leb (a b : Date) : bool :=
  match a, b with
  | Time x, Time y => x <=? y
  | _, _ => false
  end.

Definition date_ltb (a b : Date) : bool :=
  match a, b with
  | Time x, Time y => x <? y
  | _, _ => false
  end.

End JSDate.

Import JSDate.

(** ** JavaScript values used by the component *)

Module JS.

(** A JavaScript number that is an integer or NaN.  [-0] is [Num 0]: the
    component only compares and tests these numbers, and both zeros compare
    and test alike. *)
Inductive num : Type :=
| NaN : num
| Num (z : Z) : num.

(** ToBoolean on a number: [0] and NaN are falsy. *)
Definition truthy_num (n : num) : bool :=
  match n with
  | NaN => false
  | Num z => negb (z =? 0)%Z
  end.

(** [a <= b]; any comparison with NaN is false. *)
Definition num_leb (a b : num) : bool :=
  match a, b with
  | Num x, Num y => (x <=? y)%Z
  | _, _ => false
  end.

Definition num_geb (a b : num) : bool := num_leb b a.

(** [a - b] on optional time values ([None] is NaN). *)
Definition num_sub (a b : option Z) : num :=
  match a, b with
  | Some x, Some y => Num (x - y)
  | _, _ => NaN
  end.

(** Strings are sequences of code units below 256 (U+0000 to U+00FF). *)
Definition code (c : ascii) : nat := nat_of_ascii c.

(** White space and line terminators in that range: TAB, LF, VT, FF, CR,
    SP and NBSP. *)
Definition is_whitespace (c : ascii) : bool :=
  let n := code c in
  ((9 <=? n)%nat && (n <=? 13)%nat) || (n =? 32)%nat || (n =? 160)%nat.

Definition is_digit (c : ascii) : bool :=
  let n := code c in (48 <=? n)%nat && (n <=? 57)%nat.

Definition digit_value (c : ascii) : Z := Z.of_nat (code c) - 48.

(** ToBoolean on a string: only the empty string is falsy. *)
Definition truthy_str (s : string) : bool :=
  match s with
  | EmptyString => false
  | String _ _ => true
  end.

Fixpoint trimStart (s : string) : string :=
  match s with
  | EmptyString => EmptyString
  | String c s' => if is_whitespace c then trimStart s' else s
  end.

Fixpoint trimEnd (s : string) : string :=
  match s with
  | EmptyString => EmptyString
  | String c s' =>
      match trimEnd s' with
      | EmptyString => if is_whitespace c then EmptyString
                       else String c EmptyString
      | r => String c r
      end
  end.

Definition trim (s : string) : string := trimEnd (trimStart s).

(** The longest prefix of decimal digits, as an integer; [acc] is [None]
    until a digit has been read. *)
Fixpoint parse_digits (s : string) (acc : option Z) : option Z :=
  match s with
  | EmptyString => acc
  | String c s' =>
      if is_digit c
      then parse_digits s' (Some (10 * default 0%Z acc + digit_value c)%Z)
      else acc
  end.

(** [Number.parseInt(s, 10)]: leading white space is skipped, one sign is
    read, then the longest run of decimal digits; NaN when there is no
    digit.  The float rounding of integers above 2^53 is not modelled, nor
    the Infinity of a digit string beyond the largest double: here the
    result is the integer itself, of the same sign and zero in the same
    cases. *)
Definition parseInt (s : string) : num :=
  let s1 := trimStart s in
  let '(sign, s2) :=
    match s1 with
    | String "-"%char r => ((-1)%Z, r)
    | String "+"%char r => (1%Z, r)
    | _ => (1%Z, s1)
    end in
  match parse_digits s2 None with
  | None => NaN
  | Some z => Num (sign * z)
  end.

(** ToInt32, for the bit operations of [generateAvatarColor]. *)
Definition toInt32 (z : Z) : Z :=
  let m := (z mod 4294967296)%Z in
  if (m <? 2147483648)%Z then m else (m - 4294967296)%Z.

(** The double quote, for messages that quote a title. *)
Definition dquote : string := String (ascii_of_nat 34) EmptyString.

End JS.

(** ** The date-fns functions the component imports *)

Module DateFns.
Local Open Scope Z_scope.

(** Default options: the week starts on Sunday. *)
Definition weekStartsOn : Z := 0.

Definition isValid (d : Date) : bool :=
  match d with
  | Invalid => false
  | Time _ => true
  end.

Definition isBefore (d dateToCompare : Date) : bool := date_ltb d dateToCompare.

Definition startOfDay (d : Date) : Date := setHours d 0 0 0 0.

(** [+startOfDay(a) === +startOfDay(b)]; NaN is not equal to itself. *)
Definition isSameDay (a b : Date) : bool :=
  match getTime (startOfDay a), getTime (startOfDay b) with
  | Some x, Some y => x =? y
  | _, _ => false
  end.

Definition startOfMonth (d : Date) : Date :=
  setHours (setDate d 1) 0 0 0 0.

Definition endOfMonth (d : Date) : Date :=
  match getFullYear d, getMonth d with
  | Some y, Some month => setHours (setFullYear d y (month + 1) 0) 23 59 59 999
  | _, _ => Invalid
  end.

Definition startOfWeek (d : Date) : Date :=
  match getDay d, getDate d with
  | Some day, Some dt =>
      let diff := (if day <? weekStartsOn then 7 else 0) + day - weekStartsOn in
      setHours (setDate d (dt - diff)) 0 0 0 0
  | _, _ => Invalid
  end.

Definition endOfWeek (d : Date) : Date :=
  match getDay d, getDate d with
  | Some day, Some dt =>
      let diff :=
        (if day <? weekStartsOn then -7 else 0) + 6 - (day - weekStartsOn) in
      setHours (setDate d (dt + diff)) 23 59 59 999
  | _, _ => Invalid
  end.

Definition addDays (d : Date) (amount : Z) : Date :=
  if amount =? 0 then d
  else match getDate d with
       | Some dt => setDate d (dt + amount)
       | None => Invalid
       end.

End DateFns.

Import JS DateFns.

(** ** Data model *)

Module Attendee.
Record t : Type := mk {
  id : string;
  name : string;
  avatarColor : option string
}.
End Attendee.

Module Event.
Record t : Type := mk {
  id : string;
  title : string;
  date : string;
  description : string;
  location : string;
  attendees : list Attendee.t;
  maxAttendees : option num;
  createdBy : Attendee.t
}.

Definition with_attendees (event : t) (newAttendees : list Attendee.t) : t :=
  mk (id event) (title event) (date event) (description event)
     (location event) newAttendees (maxAttendees event) (createdBy event).
End Event.

(** The argument of [handleAddEvent]: an event without [id], [attendees]
    and [createdBy]. *)
Module NewEventData.
Record t : Type := mk {
  title : string;
  date : string;
  description : string;
  location : string;
  maxAttendees : option num
}.
End NewEventData.

Inductive toastType : Type := success | error.

Record Toast : Type := mkToast {
  message : string;
  type : toastType
}.

(** ** Toasts as a writer effect *)

Definition W (A : Type) : Type := (A * list Toast)%type.

#[global] Instance W_ret : MRet W := fun A (a : A) => (a, []).

#[global] Instance W_bind : MBind W := fun A B (k : A → W B) (m : W A) =>
  let '(a, l1) := m in
  let '(b, l2) := k a in
  (b, l1 ++ l2).

Definition showToast (msg : string) (ty : toastType) : W unit :=
  (tt, [mkToast msg ty]).

(** [Array.prototype.map] with a callback that may show toasts. *)
Fixpoint mapW {A B : Type} (f : A → W B) (l : list A) : W (list B) :=
  match l with
  | [] => mret []
  | x :: l' => y ← f x; ys ← mapW f l'; mret (y :: ys)
  end.

(** ** Helpers of the component *)

Definition colors : list string :=
  ["bg-red-400"; "bg-orange-400"; "bg-amber-400"; "bg-yellow-400";
   "bg-lime-400"; "bg-green-400"; "bg-emerald-400"; "bg-teal-400";
   "bg-cyan-400"; "bg-sky-400"; "bg-blue-400"; "bg-indigo-400";
   "bg-violet-400"; "bg-purple-400"; "bg-fuchsia-400"; "bg-pink-400";
   "bg-rose-400"]%string.

Fixpoint avatarHash (s : string) (hash : Z) : Z :=
  match s with
  | EmptyString => hash
  | String c s' =>
      let hash1 := (Z.of_nat (code c) + (toInt32 (hash * 32) - hash))%Z in
      avatarHash s' (toInt32 hash1)
  end.

Definition generateAvatarColor (id : string) : option string :=
  let hash := avatarHash id 0 in
  let index := Z.abs (Z.rem hash (Z.of_nat (length colors))) in
  colors !! Z.to_nat index.

(** [Array.prototype.sort] is stable; with a comparator that is a total
    preorder its result is the stable ordering, computed here by insertion.
    A comparator result that is NaN counts as zero. *)
Section Sort.
Context {A : Type} (cmp : A → A → num).

Definition cmp_gt (a b : A) : bool :=
  match cmp a b with
  | NaN => false
  | Num v => (0 <? v)%Z
  end.

Fixpoint sort_insert (x : A) (l : list A) : list A :=
  match l with
  | [] => [x]
  | y :: l' => if cmp_gt x y then y :: sort_insert x l' else x :: l
  end.

Fixpoint sort (l : list A) : list A :=
  match l with
  | [] => []
  | x :: l' => sort_insert x (sort l')
  end.
End Sort.

(** ** State of the components *)

(** The state of [GroupEventPlanner] that the handlers read and write; the
    notification is kept as the log of the toasts shown. *)
Record AppState : Type := mkApp {
  events : list Event.t;
  selectedDate : option Date;
  isAddEventModalOpen : bool;
  toasts : list Toast
}.

(** The state of [AddEventForm]: the raw inputs and the error map. *)
Module AddEventForm.
Record state : Type := mk {
  title : string;
  date : string;
  description : string;
  location : string;
  maxAttendees : string;
  errors : gmap string string
}.

Definition with_errors (f : state) (newErrors : gmap string string) : state :=
  mk (title f) (date f) (description f) (location f) (maxAttendees f) newErrors.
End AddEventForm.

(** ** calendarDays *)

(** The inner [for] loop: seven pushes, each followed by [addDays day 1]. *)
Fixpoint fill_week (i : nat) (days : list Date) (day : Date)
  : list Date * Date :=
  match i with
  | O => (days, day)
  | S i' => fill_week i' (days ++ [day]) (addDays day 1)
  end.

(** The [while (day <= endDate)] loop; [fuel] bounds the number of times
    the condition is evaluated. *)
Fixpoint calendarDays_loop (fuel : nat) (endDate : Date)
    (rows : list (list Date)) (day : Date) : option (list (list Date)) :=
  match fuel with
  | O => None
  | S fuel' =>
      if date_leb day endDate then
        let '(days, day') := fill_week 7 [] day in
        calendarDays_loop fuel' endDate (rows ++ [days]) day'
      else Some rows
  end.

Definition calendarDays (fuel : nat) (currentMonth : Date)
  : option (list (list Date)) :=
  let monthStart := startOfMonth currentMonth in
  let monthEnd := endOfMonth monthStart in
  let startDate := startOfWeek monthStart in
  let endDate := endOfWeek monthEnd in
  calendarDays_loop fuel endDate [] startDate.

(** ** The component, over the library functions it does not define *)

Section GroupEventPlanner.
Variable parseISO : string → Date.
Variable format : Date → string → string.
Variable toISOString : Date → string.

(** The signed-in user; the source binds it to the constant [user1]. *)
Variable mockUser : Attendee.t.

(** *** eventsOnSelectedDate *)

Definition onSelectedDate (selectedDate : Date) (event : Event.t) : bool :=
  isValid (parseISO (Event.date event))
  && isSameDay (parseISO (Event.date event)) selectedDate.

Definition compareByTime (a b : Event.t) : num :=
  num_sub (getTime (parseISO (Event.date a)))
          (getTime (parseISO (Event.date b))).

Definition eventsOnSelectedDate (selectedDate : option Date)
    (events : list Event.t) : list Event.t :=
  match selectedDate with
  | None => []
  | Some sd => sort compareByTime (List.filter (onSelectedDate sd) events)
  end.

(** *** eventsByDate *)

Definition eventsByDate_step (map : gmap string (list Event.t))
    (event : Event.t) : gmap string (list Event.t) :=
  if isValid (parseISO (Event.date event)) then
    let dateKey := format (parseISO (Event.date event)) "yyyy-MM-dd" in
    let existing := default [] (map !! dateKey) in
    <[dateKey := existing ++ [event]]> map
  else map.

Definition eventsByDate (events : list Event.t)
  : gmap string (list Event.t) :=
  foldl eventsByDate_step ∅ events.

(** *** handleAddEvent; [now] is the value of [Date.now()] *)

Definition handleAddEvent (now : Z) (newEventData : NewEventData.t)
    (st : AppState) : AppState :=
  let parsedDate := parseISO (NewEventData.date newEventData) in
  if negb (isValid parsedDate) then
    mkApp (events st) (selectedDate st) (isAddEventModalOpen st)
          (toasts st ++ [mkToast "Invalid date format provided." error])
  else
    let newEvent :=
      Event.mk ("evt" +:+ pretty now)
               (NewEventData.title newEventData)
               (toISOString parsedDate)
               (NewEventData.description newEventData)
               (NewEventData.location newEventData)
               [mockUser]
               (NewEventData.maxAttendees newEventData)
               mockUser in
    mkApp (events st ++ [newEvent]) (Some parsedDate) false
          (toasts st ++
           [mkToast ("Event " +:+ dquote +:+ Event.title newEvent +:+ dquote
                     +:+ " created successfully!") success]).

(** *** handleRsvp *)

Definition isMockUser (a : Attendee.t) : bool :=
  String.eqb (Attendee.id a) (Attendee.id mockUser).

(** [event.maxAttendees && event.attendees.length >= event.maxAttendees] *)
Definition isFull (event : Event.t) : bool :=
  match Event.maxAttendees event with
  | None => false
  | Some m =>
      truthy_num m
      && num_geb (Num (Z.of_nat (length (Event.attendees event)))) m
  end.

(** The callback of [prevEvents.map]. *)
Definition rsvp (eventId : string) (event : Event.t) : W Event.t :=
  if String.eqb (Event.id event) eventId then
    let isAttending := existsb isMockUser (Event.attendees event) in
    if isAttending then
      let newAttendees :=
        List.filter (fun a => negb (isMockUser a)) (Event.attendees event) in
      showToast ("Your RSVP for " +:+ dquote +:+ Event.title event
                 +:+ dquote +:+ " has been canceled.") success;;
      mret (Event.with_attendees event newAttendees)
    else if isFull event then
      showToast ("Sorry, " +:+ dquote +:+ Event.title event +:+ dquote
                 +:+ " is full.") error;;
      mret event
    else
      let newAttendees := Event.attendees event ++ [mockUser] in
      showToast ("You've successfully RSVP'd to " +:+ dquote
                 +:+ Event.title event +:+ dquote +:+ "!") success;;
      mret (Event.with_attendees event newAttendees)
  else mret event.

(** The updater passed to [setEvents]. *)
Definition rsvpEvents (eventId : string) (prevEvents : list Event.t)
  : W (list Event.t) :=
  mapW (rsvp eventId) prevEvents.

Definition handleRsvp (eventId : string) (st : AppState) : AppState :=
  let '(newEvents, shown) := rsvpEvents eventId (events st) in
  mkApp newEvents (selectedDate st) (isAddEventModalOpen st)
        (toasts st ++ shown).

(** *** validateForm and handleSubmit

    [now] and [now'] are the two successive values of [new Date()] read
    by the date check. *)

Definition validateForm (now now' : Z) (f : AddEventForm.state)
  : bool * gmap string string :=
  let newErrors : gmap string string := ∅ in
  let isValidForm := true in
  let '(newErrors, isValidForm) :=
    if negb (truthy_str (trim (AddEventForm.title f))) then
      (<["title" := "Title is required."]> newErrors, false)
    else (newErrors, isValidForm) in
  let '(newErrors, isValidForm) :=
    if negb (truthy_str (AddEventForm.date f)) then
      (<["date" := "Date and time are required."]> newErrors, false)
    else
      let selectedDate := parseISO (AddEventForm.date f) in
      if negb (isValid selectedDate) then
        (<["date" := "Invalid date/time format."]> newErrors, false)
      else if isBefore selectedDate (Time now) then
        let oneMinuteAgo := TimeClip (now' - 60000) in
        if isBefore selectedDate oneMinuteAgo then
          (<["date" := "Date/time cannot be in the past."]> newErrors, false)
        else (newErrors, isValidForm)
      else (newErrors, isValidForm) in
  let '(newErrors, isValidForm) :=
    if negb (truthy_str (trim (AddEventForm.location f))) then
      (<["location" := "Location is required."]> newErrors, false)
    else (newErrors, isValidForm) in
  let '(newErrors, isValidForm) :=
    if truthy_str (AddEventForm.maxAttendees f)
       && num_leb (parseInt (AddEventForm.maxAttendees f)) (Num 0) then
      (<["maxAttendees" := "Max attendees must be a positive number."]>
         newErrors, false)
    else (newErrors, isValidForm) in
  (isValidForm, newErrors).

(** [handleSubmit] over the parent's state [S] and its [onAddEvent]. *)
Definition handleSubmit {S : Type} (onAddEvent : NewEventData.t → S → S)
    (now now' : Z) (f : AddEventForm.state) (parent : S)
  : AddEventForm.state * S :=
  let '(ok, newErrors) := validateForm now now' f in
  let f' := AddEventForm.with_errors f newErrors in
  if ok then
    (f', onAddEvent
           (NewEventData.mk
              (trim (AddEventForm.title f))
              (AddEventForm.date f)
              (trim (AddEventForm.description f))
              (trim (AddEventForm.location f))
              (if truthy_str (AddEventForm.maxAttendees f)
               then Some (parseInt (AddEventForm.maxAttendees f))
               else None))
           parent)
  else (f', parent).

End GroupEventPlanner.

(** The constant the source binds [mockUser] to. *)
Definition user1 : Attendee.t :=
  Attendee.mk "user1" "You" (generateAvatarColor "user1").

(** ** Vocabulary of the statements *)

(** Day numbers whose time values lie within the range of [TimeClip]. *)
Definition day_in_range (a : Z) : Prop := (-99999999 ≤ a ≤ 99999999)%Z.

(** The Date at 00:00:00.000 of day number [a]. *)
Definition midnight (a : Z) : Date := Time (a * msPerDay).

(** [k] rows of seven consecutive midnights, from day number [a]. *)
Fixpoint week_rows (a : Z) (k : nat) : list (list Date) :=
  match k with
  | O => []
  | S k' => (midnight <$> seqZ a 7) :: week_rows (a + 7) k'
  end.

(** The months whose grid lies within the range of time values. *)
Definition valid_month (y m : Z) : Prop :=
  (-271820 ≤ y ≤ 275759)%Z ∧ (0 ≤ m ≤ 11)%Z.

(** The attendee [me] is on the roster of [event]; identity is by [id]. *)
Definition isMember (me : Attendee.t) (event : Event.t) : Prop :=
  ∃ a, a ∈ Event.attendees event ∧ Attendee.id a = Attendee.id me.

Definition attendeeCount (event : Event.t) : num :=
  Num (Z.of_nat (length (Event.attendees event))).

(** [maxAttendees] is set and the attendee count is [>=] it. *)
Definition capacity_reached (event : Event.t) : Prop :=
  ∃ m, Event.maxAttendees event = Some m ∧ num_geb (attendeeCount event) m = true.

(** The data model has [maxAttendees] absent or a positive integer; the
    statements about capacity need it not to be zero. *)
Definition capacity_nonzero (event : Event.t) : Prop :=
  Event.maxAttendees event ≠ Some (Num 0).

Definition no_duplicate_ids (event : Event.t) : Prop :=
  NoDup (Attendee.id <$> Event.attendees event).

(** If [maxAttendees] is set, the attendee count is [<=] it. *)
Definition within_capacity (event : Event.t) : Prop :=
  ∀ m, Event.maxAttendees event = Some m →
       num_leb (attendeeCount event) m = true.

Definition roster_inv (event : Event.t) : Prop :=
  no_duplicate_ids event ∧ within_capacity event.

(** The instant of an event, when its date parses. *)
Definition eventInstant (parseISO : string → Date) (event : Event.t)
  : option Z :=
  getTime (parseISO (Event.date event)).

Definition atInstant (parseISO : string → Date) (t : Z) (event : Event.t)
  : bool :=
  bool_decide (eventInstant parseISO event = Some t).

Definition instantKey (parseISO : string → Date) (event : Event.t) : Z :=
  default 0%Z (eventInstant parseISO event).

Definition hasValidDate (parseISO : string → Date) (event : Event.t) : Prop :=
  isValid (parseISO (Event.date event)) = true.

(** Both events have an instant, and the first is not after the second. *)
Definition instant_le (parseISO : string → Date) (a b : Event.t) : Prop :=
  ∃ x y, eventInstant parseISO a = Some x ∧ eventInstant parseISO b = Some y
         ∧ (x ≤ y)%Z.

(** The events with a valid date whose day key is [key], in source order. *)
Definition eventsWithKey (parseISO : string → Date)
    (format : Date → string → string) (key : string)
    (events : list Event.t) : list Event.t :=
  List.filter
    (fun event =>
       isValid (parseISO (Event.date event))
       && String.eqb (format (parseISO (Event.date event)) "yyyy-MM-dd") key)
    events.

(** The groups of an index, one after the other. *)
Definition flattenGroups (index : gmap string (list Event.t)) : list Event.t :=
  concat ((map_to_list index).*2).

(** The date check of [validateForm] fails: the input is empty, does not
    parse, or parses to an instant before the first clock reading and
    before one minute ago by the second. *)
Definition dateRejected (parseISO : string → Date) (now now' : Z)
    (f : AddEventForm.state) : Prop :=
  AddEventForm.date f = EmptyString
  ∨ parseISO (AddEventForm.date f) = Invalid
  ∨ ∃ t o, parseISO (AddEventForm.date f) = Time t ∧ (t < now)%Z
           ∧ TimeClip (now' - 60000) = Time o ∧ (t < o)%Z.

(** The maximum check of [validateForm] fails: a value is supplied and
    parses to an integer that is zero or negative. *)
Definition maxRejected (f : AddEventForm.state) : Prop :=
  AddEventForm.maxAttendees f ≠ EmptyString
  ∧ ∃ z, parseInt (AddEventForm.maxAttendees f) = Num z ∧ (z ≤ 0)%Z.

(** The argument that [handleSubmit] passes to [onAddEvent]. *)
Definition submittedData (f : AddEventForm.state) : NewEventData.t :=
  NewEventData.mk
    (trim (AddEventForm.title f))
    (AddEventForm.date f)
    (trim (AddEventForm.description f))
    (trim (AddEventForm.location f))
    (if truthy_str (AddEventForm.maxAttendees f)
     then Some (parseInt (AddEventForm.maxAttendees f))
     else None).

(** A fixture standing for [parseISO] on the inputs of the examples. *)
Definition sampleParseISO (s : string) : Date :=
  if String.eqb s "2030-01-01T10:00" then Time 1893492000000
  else if String.eqb s "2025-11-03T00:00:05" then Time 1762128005000
  else if String.eqb s "2025-11-03T00:05:00" then Time 1762128300000
  else if String.eqb s "2025-11-02T23:59:55" then Time 1762127995000
  else if String.eqb s "2025-11-02T23:55:00" then Time 1762127700000
  else Invalid.

(** A fixture standing for [format _ "yyyy-MM-dd"] on those instants. *)
Definition sampleFormat (d : Date) (pattern : string) : string :=
  match d with
  | Invalid => EmptyString
  | Time t =>
      if (Day t =? 20395)%Z then "2025-11-03"
      else if (Day t =? 20394)%Z then "2025-11-02"
      else if (Day t =? 21915)%Z then "2030-01-01"
      else EmptyString
  end.

(** An event of the examples, with the given id and date. *)
Definition sampleEvent (id date : string) : Event.t :=
  Event.mk id "Sync" date EmptyString "X" [user1] None user1.

(** A draft of the examples, with the given date and maximum inputs. *)
Definition sampleForm (date maxAttendees : string) : AddEventForm.state :=
  AddEventForm.mk "Sync" date EmptyString "X" maxAttendees ∅.

(** The four checks of [validateForm], as the error each leaves. *)
Definition titleError (f : AddEventForm.state) : option string :=
  if negb (truthy_str (trim (AddEventForm.title f)))
  then Some "Title is required." else None.

Definition dateError (parseISO : string → Date) (now now' : Z)
    (f : AddEventForm.state) : option string :=
  if negb (truthy_str (AddEventForm.date f))
  then Some "Date and time are required."
  else if negb (isValid (parseISO (AddEventForm.date f)))
  then Some "Invalid date/time format."
  else if isBefore (parseISO (AddEventForm.date f)) (Time now)
          && isBefore (parseISO (AddEventForm.date f))
                      (TimeClip (now' - 60000))
  then Some "Date/time cannot be in the past."
  else None.

Definition locationError (f : AddEventForm.state) : option string :=
  if negb (truthy_str (trim (AddEventForm.location f)))
  then Some "Location is required." else None.

Definition maxAttendeesError (f : AddEventForm.state) : option string :=
  if truthy_str (AddEventForm.maxAttendees f)
     && num_leb (parseInt (AddEventForm.maxAttendees f)) (Num 0)
  then Some "Max attendees must be a positive number." else None.

Definition setError (field : string) (e : option string)
    (errs : gmap string string) : gmap string string :=
  match e with
  | Some msg => <[field := msg]> errs
  | None => errs
  end.

Definition errorsOf (title date location maxAttendees : option string)
  : gmap string string :=
  setError "maxAttendees" maxAttendees
    (setError "location" location
       (setError "date" date (setError "title" title ∅))).

(** Every check of [validateForm] passes. *)
Definition allAccepted (parseISO : string → Date) (now now' : Z)
    (f : AddEventForm.state) : bool :=
  bool_decide (titleError f = None ∧ dateError parseISO now now' f = None
               ∧ locationError f = None ∧ maxAttendeesError f = None).

(** Fixtures of the examples: a second attendee and an event with one slot
    that this attendee holds. *)
Definition user2 : Attendee.t :=
  Attendee.mk "user2" "Alice" (generateAvatarColor "user2").

Definition oneSlotEvent : Event.t :=
  Event.mk "evt1" "Team Sync" "2030-01-01T10:00" EmptyString "Cafeteria"
           [user2] (Some (Num 1)) user2.

Definition oneSlotState : AppState := mkApp [oneSlotEvent] None false [].

(** * More of the component *)

(** ** Date functions of the month navigation and of the cells *)

(** [Date.prototype.setMonth(month, date)] *)
Definition setMonth (d : Date) (m dt : Z) : Date :=
  match d with
  | Invalid => Invalid
  | Time t =>
      TimeClip (MakeDate (MakeDay (YearFromTime t) m dt) (TimeWithinDay t))
  end.

Definition isSameMonth (a b : Date) : bool :=
  match getFullYear a, getFullYear b, getMonth a, getMonth b with
  | Some ya, Some yb, Some ma, Some mb => (ya =? yb)%Z && (ma =? mb)%Z
  | _, _, _, _ => false
  end.

Definition addMonths (d : Date) (amount : Z) : Date :=
  if (amount =? 0)%Z then d
  else
    match getDate d, getMonth d with
    | Some dayOfMonth, Some month =>
        let endOfDesiredMonth := setMonth d (month + amount + 1) 0 in
        match getDate endOfDesiredMonth, getFullYear endOfDesiredMonth,
              getMonth endOfDesiredMonth with
        | Some daysInMonth, Some y, Some m =>
            if (daysInMonth <=? dayOfMonth)%Z then endOfDesiredMonth
            else setFullYear d y m dayOfMonth
        | _, _, _ => Invalid
        end
    | _, _ => Invalid
    end.

Definition subMonths (d : Date) (amount : Z) : Date := addMonths d (- amount).

(** The month handlers: the new [currentMonth] and the new [selectedDate]. *)
Definition handlePrevMonth (currentMonth : Date) : Date * option Date :=
  (subMonths currentMonth 1, None).

Definition handleNextMonth (currentMonth : Date) : Date * option Date :=
  (addMonths currentMonth 1, None).

(** The first and the last day number of the grid of month [m] of [y], and
    the number of days of the month. *)
Definition gridStart (y m : Z) : Z :=
  (MakeDay y m 1 - (MakeDay y m 1 + 4) mod 7)%Z.

Definition gridEnd (y m : Z) : Z :=
  (MakeDay y (m + 1) 0 + 6 - (MakeDay y (m + 1) 0 + 4) mod 7)%Z.

Definition daysInMonth (y m : Z) : Z :=
  (MakeDay y (m + 1) 0 - MakeDay y m 1 + 1)%Z.

(** The click handler of a cell: [isCurrentMonthDay && handleDateClick(day)];
    the result is the date passed to [setSelectedDate], if any. *)
Definition handleDateClick (day : Date) : option Date := Some day.

Definition cellClick (currentMonth day : Date) : option Date :=
  if isSameMonth day currentMonth then handleDateClick day else None.

(** ** EventCard: the values computed before rendering *)

Module EventCard.

Definition isAttending (currentUser : Attendee.t) (event : Event.t) : bool :=
  existsb (fun a => String.eqb (Attendee.id a) (Attendee.id currentUser))
          (Event.attendees event).

(** [!!event.maxAttendees && event.attendees.length >= event.maxAttendees] *)
Definition isFull (event : Event.t) : bool :=
  match Event.maxAttendees event with
  | None => false
  | Some m =>
      truthy_num m
      && num_geb (Num (Z.of_nat (length (Event.attendees event)))) m
  end.

(** The value of the button's [disabled] attribute. *)
Definition canRsvp (currentUser : Attendee.t) (event : Event.t) : bool :=
  negb (isAttending currentUser event) && isFull event.

End EventCard.

(** ** Vocabulary and fixtures of the further statements *)

(** The string is empty or made only of the white-space code units TAB, LF,
    VT, FF, CR, SP and NBSP. *)
Fixpoint allWhitespace (s : string) : bool :=
  match s with
  | EmptyString => true
  | String c s' => is_whitespace c && allWhitespace s'
  end.

(** An [onAddEvent] that records its argument, to observe [handleSubmit]. *)
Definition recordCall (data : NewEventData.t) (_ : option NewEventData.t)
  : option NewEventData.t :=
  Some data.

(** Fixtures standing for [toISOString] and for [parseISO] on its output. *)
Definition sampleToISOString (d : Date) : string :=
  match d with
  | Invalid => EmptyString
  | Time t =>
      if (t =? 1893492000000)%Z then "2030-01-01T10:00:00.000Z"
      else if (t =? 1762128300000)%Z then "2025-11-03T00:05:00.000Z"
      else EmptyString
  end.

Definition sampleParseISOZ (s : string) : Date :=
  if String.eqb s "2030-01-01T10:00:00.000Z" then Time 1893492000000
  else if String.eqb s "2025-11-03T00:05:00.000Z" then Time 1762128300000
  else sampleParseISO s.

(** The event that [handleAddEvent] builds. *)
Definition createdEvent (parseISO : string → Date)
    (toISOString : Date → string) (mockUser : Attendee.t) (now : Z)
    (newEventData : NewEventData.t) : Event.t :=
  Event.mk ("evt" +:+ pretty now)
           (NewEventData.title newEventData)
           (toISOString (parseISO (NewEventData.date newEventData)))
           (NewEventData.description newEventData)
           (NewEventData.location newEventData)
           [mockUser]
           (NewEventData.maxAttendees newEventData)
           mockUser.

(** ** The initial events and the actions that change the event list *)

(** [new Date(year, month, date, hours, minutes)] in local time; a year
    from 0 to 99 stands for 1900 + year. *)
Definition newDate (year month date hours minutes : Z) : Date :=
  let yr := if ((0 <=? year) && (year <=? 99))%Z then (1900 + year)%Z
            else year in
  TimeClip (MakeDate (MakeDay yr month date) (MakeTime hours minutes 0 0)).

(** [initialEvents], [now] being the time value of the [new Date()] calls
    of the module initialisation. *)
Definition initialEvents (toISOString : Date → string) (now : Z)
  : list Event.t :=
  let user n name := Attendee.mk n name (generateAvatarColor n) in
  let alice := user "user2" "Alice" in
  let bob := user "user3" "Bob" in
  let charlie := user "user4" "Charlie" in
  let y := YearFromTime now in
  let m := MonthFromTime now in
  [ Event.mk "evt1" "Team Sync & Lunch"
      (toISOString (newDate y m 15 13 0))
      "Quick sync on project updates followed by team lunch."
      "Office Cafeteria & Downtown Deli"
      [user1; alice] (Some (Num 10)) alice;
    Event.mk "evt2" "Weekend Hike: Summit Trail"
      (toISOString (newDate y m 22 9 0))
      "Challenging but rewarding hike. Pack essentials!"
      "Summit Trail Head"
      [bob] None bob;
    Event.mk "evt3" "Game Night: Strategy Edition"
      (toISOString (newDate y (m + 1) 5 19 0))
      "Let's play some complex board games. Snacks provided."
      "Community Center Room 3"
      [user1] (Some (Num 8)) user1;
    Event.mk "evt4" "Design Review"
      (toISOString (newDate y m (DateFromTime now) 10 0))
      "Review the latest UI mockups."
      "Online Meeting"
      [user1; alice; charlie] (Some (Num 5)) alice ].

(** The initial state: the initial events, today selected, no modal. *)
Definition initialState (toISOString : Date → string) (now : Z) : AppState :=
  mkApp (initialEvents toISOString now) (Some (Time now)) false [].

(** The two user actions that call [setEvents]: a click on an RSVP button,
    and a submission of the form with its three clock readings. *)
Inductive Action : Type :=
| ClickRsvp (eventId : string)
| SubmitForm (f : AddEventForm.state) (now now' nowId : Z).

Definition applyAction (parseISO : string → Date)
    (toISOString : Date → string) (mockUser : Attendee.t)
    (st : AppState) (a : Action) : AppState :=
  match a with
  | ClickRsvp eventId => handleRsvp mockUser eventId st
  | SubmitForm f now now' nowId =>
      (handleSubmit parseISO
         (handleAddEvent parseISO toISOString mockUser nowId)
         now now' f st).2
  end.

Definition run (parseISO : string → Date) (toISOString : Date → string)
    (mockUser : Attendee.t) (actions : list Action) (st : AppState)
  : AppState :=
  foldl (applyAction parseISO toISOString mockUser) st actions.

(** No duplicate attendee id, and a [maxAttendees] that is an integer is at
    least one and at least the number of attendees. *)
Definition wellFormedEvent (event : Event.t) : Prop :=
  no_duplicate_ids event ∧
  ∀ z, Event.maxAttendees event = Some (Num z) →
       (1 ≤ z)%Z ∧ (Z.of_nat (length (Event.attendees event)) ≤ z)%Z.

(** ** The maximum of a draft, as the specification has it

    The fifth validation rule of the specification's Event Factory, in its
    words: if a max-attendee value is supplied, it parses to an integer and
    is [>= 1]. *)
Definition spec_maxAttendees_rule (f : AddEventForm.state) : Prop :=
  AddEventForm.maxAttendees f ≠ EmptyString →
  ∃ z, parseInt (AddEventForm.maxAttendees f) = Num z ∧ (1 ≤ z)%Z.

(** A draft whose maximum is [.5e1]: a value that the number input of the
    form lets through (it denotes 5, within [min] and [step]), and that has
    no leading integer. *)
Definition unparsableMaxForm : AddEventForm.state :=
  sampleForm "2030-01-01T10:00" ".5e1".

(** Some event of the list has NaN as its [maxAttendees]. *)
Definition hasNaNCapacity (events : list Event.t) : Prop :=
  ∃ event, event ∈ events ∧ Event.maxAttendees event = Some NaN.

(** * Properties *)

(** ** Calendar arithmetic *)

Ltac case_ltb :=
  repeat match goal with
         | |- context [(?a <? ?b)%Z] => destruct (Z.ltb_spec a b)
         | |- context [(?a <=? ?b)%Z] => destruct (Z.leb_spec a b)
         | |- context [(?a =? ?b)%Z] => destruct (Z.eqb_spec a b)
         end.

Section CalendarFacts.
Local Open Scope Z_scope.

Lemma DayFromYear_succ y : DayFromYear (y + 1) - DayFromYear y = DaysInYear y.
Proof.
  unfold DayFromYear, DaysInYear.
  repeat match goal with
         | |- context [negb (?a =? ?b)] => destruct (Z.eqb_spec a b); simpl
         end;
    Z.to_euclidean_division_equations; lia.
Qed.

Lemma DaysInYear_cases y : DaysInYear y = 365 ∨ DaysInYear y = 366.
Proof.
  unfold DaysInYear.
  repeat match goal with
         | |- context [negb (?a =? ?b)] => destruct (Z.eqb_spec a b); simpl
         end; auto.
Qed.

Lemma DayFromYear_mono a b : a ≤ b → DayFromYear a ≤ DayFromYear b.
Proof.
  intros Hab. unfold DayFromYear. Z.to_euclidean_division_equations. lia.
Qed.

Lemma YearFromDay_spec d :
  DayFromYear (YearFromDay d) ≤ d < DayFromYear (YearFromDay d + 1).
Proof.
  unfold YearFromDay.
  set (y := 1970 + 400 * d / 146097).
  assert (Hy : DayFromYear (y - 1) ≤ d < DayFromYear (y + 2)).
  { unfold DayFromYear, y. Z.to_euclidean_division_equations. lia. }
  destruct (Z.ltb_spec d (DayFromYear y)).
  - replace (y - 1 + 1) with y by lia. lia.
  - destruct (Z.leb_spec (DayFromYear (y + 1)) d).
    + replace (y + 1 + 1) with (y + 2) by lia. lia.
    + lia.
Qed.

Lemma YearFromDay_unique y d :
  DayFromYear y ≤ d < DayFromYear (y + 1) → YearFromDay d = y.
Proof.
  intros Hd. pose proof (YearFromDay_spec d) as Hs.
  destruct (Z.lt_trichotomy (YearFromDay d) y) as [Hlt | [Heq | Hgt]]; auto.
  - pose proof (DayFromYear_mono (YearFromDay d + 1) y). lia.
  - pose proof (DayFromYear_mono (y + 1) (YearFromDay d)). lia.
Qed.

Lemma DayWithinYearOf_range d :
  0 ≤ DayWithinYearOf d < DaysInYear (YearFromDay d).
Proof.
  unfold DayWithinYearOf. pose proof (YearFromDay_spec d).
  pose proof (DayFromYear_succ (YearFromDay d)). lia.
Qed.

Lemma InLeapYearOf_cases y : InLeapYearOf y = 0 ∨ InLeapYearOf y = 1.
Proof. unfold InLeapYearOf. destruct (DaysInYear_cases y); lia. Qed.

Lemma MonthFromDay_range d : 0 ≤ MonthFromDay d ≤ 11.
Proof. unfold MonthFromDay. case_ltb; lia. Qed.

(** The month table read both ways: month [m] covers the days-within-year
    from [monthStart m] up to [monthStart (m + 1)]. *)
Lemma MonthFromDay_bounds d :
  let leap := InLeapYearOf (YearFromDay d) in
  monthStart (MonthFromDay d) leap ≤ DayWithinYearOf d
    < monthStart (MonthFromDay d + 1) leap.
Proof.
  intros leap. pose proof (DayWithinYearOf_range d) as Hw.
  assert (Hl : DaysInYear (YearFromDay d) = 365 + leap)
    by (unfold leap, InLeapYearOf; lia).
  destruct (InLeapYearOf_cases (YearFromDay d)) as [H0 | H1];
    fold leap in H0 || fold leap in H1;
    unfold MonthFromDay; fold leap;
    generalize dependent (DayWithinYearOf d); intros w Hw;
    unfold monthStart; case_ltb; lia.
Qed.

Lemma DateFromDay_pos d : 1 ≤ DateFromDay d.
Proof.
  unfold DateFromDay. pose proof (MonthFromDay_bounds d). simpl in *. lia.
Qed.

Lemma MakeDay_month m y dt :
  0 ≤ m ≤ 11 →
  MakeDay y m dt = DayFromYear y + monthStart m (InLeapYearOf y) + dt - 1.
Proof.
  intros Hm. unfold MakeDay.
  rewrite Z.div_small, Z.mod_small by lia. now rewrite Z.add_0_r.
Qed.

(** Setting the date of a day moves it by the difference of dates. *)
Lemma MakeDay_of_day d dt :
  MakeDay (YearFromDay d) (MonthFromDay d) dt = d + (dt - DateFromDay d).
Proof.
  rewrite MakeDay_month by apply MonthFromDay_range.
  unfold DateFromDay, DayWithinYearOf. lia.
Qed.

Lemma monthStart_mono m leap :
  0 ≤ leap ≤ 1 → 0 ≤ m ≤ 11 →
  0 ≤ monthStart m leap < monthStart (m + 1) leap ∧
  monthStart (m + 1) leap ≤ 365 + leap.
Proof. intros Hl Hm. unfold monthStart. case_ltb; lia. Qed.

(** Days [1 .. monthStart (m+1) - monthStart m] of month [m] of year [y]
    read back as that year, month and date. *)
Lemma civil_of_MakeDay y m dt :
  0 ≤ m ≤ 11 →
  1 ≤ dt ≤ monthStart (m + 1) (InLeapYearOf y) - monthStart m (InLeapYearOf y) →
  YearFromDay (MakeDay y m dt) = y ∧
  MonthFromDay (MakeDay y m dt) = m ∧
  DateFromDay (MakeDay y m dt) = dt.
Proof.
  intros Hm Hdt. rewrite MakeDay_month by assumption.
  set (leap := InLeapYearOf y) in *.
  assert (Hl : 0 ≤ leap ≤ 1) by (destruct (InLeapYearOf_cases y); lia).
  pose proof (monthStart_mono m leap Hl Hm) as Hms.
  set (d := DayFromYear y + monthStart m leap + dt - 1).
  assert (Hy : YearFromDay d = y).
  { apply YearFromDay_unique. pose proof (DayFromYear_succ y).
    unfold InLeapYearOf in leap. lia. }
  assert (Hw : DayWithinYearOf d = monthStart m leap + dt - 1)
    by (unfold DayWithinYearOf; rewrite Hy; unfold d; lia).
  assert (Hmo : MonthFromDay d = m).
  { unfold MonthFromDay. rewrite Hw, Hy. fold leap.
    revert Hdt. unfold monthStart. case_ltb; lia. }
  repeat split; auto.
  unfold DateFromDay. rewrite Hmo, Hy, Hw. fold leap. lia.
Qed.

End CalendarFacts.

(** ** Date objects within the range of time values *)

Section DateFacts.
Local Open Scope Z_scope.

Lemma Day_MakeDate a τ :
  0 ≤ τ < msPerDay →
  Day (MakeDate a τ) = a ∧ TimeWithinDay (MakeDate a τ) = τ.
Proof.
  unfold Day, TimeWithinDay, MakeDate, msPerDay. intros H.
  Z.to_euclidean_division_equations. lia.
Qed.

Lemma TimeWithinDay_range t : 0 ≤ TimeWithinDay t < msPerDay.
Proof. unfold TimeWithinDay, msPerDay. apply Z.mod_pos_bound. lia. Qed.

Lemma MakeDate_Day t : MakeDate (Day t) (TimeWithinDay t) = t.
Proof.
  unfold MakeDate, Day, TimeWithinDay, msPerDay.
  Z.to_euclidean_division_equations. lia.
Qed.

Lemma TimeClip_day a τ :
  day_in_range a → 0 ≤ τ < msPerDay →
  TimeClip (MakeDate a τ) = Time (MakeDate a τ).
Proof.
  unfold day_in_range, TimeClip, MakeDate, msPerDay, maxTime. intros Ha Hτ.
  destruct (Z.ltb_spec 8640000000000000 (Z.abs (a * 86400000 + τ))); auto.
  lia.
Qed.

Lemma setDate_time t dt :
  day_in_range (Day t + (dt - DateFromTime t)) →
  setDate (Time t) dt =
  Time (MakeDate (Day t + (dt - DateFromTime t)) (TimeWithinDay t)).
Proof.
  intros Hr. unfold setDate, YearFromTime, MonthFromTime.
  rewrite MakeDay_of_day. apply TimeClip_day; auto using TimeWithinDay_range.
Qed.

Lemma setHours_time t h m s ms :
  day_in_range (Day t) → 0 ≤ MakeTime h m s ms < msPerDay →
  setHours (Time t) h m s ms = Time (MakeDate (Day t) (MakeTime h m s ms)).
Proof. intros Hr Hτ. unfold setHours. now apply TimeClip_day. Qed.

Lemma addDays_time t amount :
  day_in_range (Day t + amount) →
  addDays (Time t) amount = Time (t + amount * msPerDay).
Proof.
  intros Hr. unfold addDays. destruct (Z.eqb_spec amount 0) as [-> | Hne].
  - f_equal. lia.
  - cbn [getDate]. rewrite setDate_time.
    + f_equal. pose proof (MakeDate_Day t) as E.
      unfold MakeDate, msPerDay in *. lia.
    + replace (Day t + (DateFromTime t + amount - DateFromTime t))
        with (Day t + amount) by lia. assumption.
Qed.

Lemma startOfMonth_time t :
  day_in_range (MakeDay (YearFromTime t) (MonthFromTime t) 1) →
  startOfMonth (Time t) =
  midnight (MakeDay (YearFromTime t) (MonthFromTime t) 1).
Proof.
  intros Hr. unfold startOfMonth.
  pose proof (MakeDay_of_day (Day t) 1) as Hm.
  fold (YearFromTime t) (MonthFromTime t) (DateFromTime t) in *.
  rewrite Hm in *.
  rewrite setDate_time by assumption.
  pose proof (TimeWithinDay_range t) as Hτ.
  destruct (Day_MakeDate (Day t + (1 - DateFromTime t)) (TimeWithinDay t) Hτ)
    as [HD _].
  rewrite setHours_time
    by (rewrite ?HD; first [assumption | cbv; split; congruence]).
  rewrite HD.
  change (MakeTime 0 0 0 0) with 0.
  unfold midnight, MakeDate. f_equal. lia.
Qed.

Lemma endOfMonth_time t :
  day_in_range (MakeDay (YearFromTime t) (MonthFromTime t + 1) 0) →
  endOfMonth (Time t) =
  Time (MakeDate (MakeDay (YearFromTime t) (MonthFromTime t + 1) 0) 86399999).
Proof.
  intros Hr. unfold endOfMonth. cbn [getFullYear getMonth setFullYear].
  pose proof (TimeWithinDay_range t) as Hτ.
  rewrite TimeClip_day by assumption.
  destruct (Day_MakeDate (MakeDay (YearFromTime t) (MonthFromTime t + 1) 0)
                         (TimeWithinDay t) Hτ) as [HD _].
  rewrite setHours_time
    by (rewrite ?HD; first [assumption | cbv; split; congruence]).
  rewrite HD.
  reflexivity.
Qed.

Lemma WeekDay_range t : 0 ≤ WeekDay t ≤ 6.
Proof. unfold WeekDay. pose proof (Z.mod_pos_bound (Day t + 4) 7). lia. Qed.

Lemma startOfWeek_time t :
  day_in_range (Day t - WeekDay t) →
  startOfWeek (Time t) = midnight (Day t - WeekDay t).
Proof.
  intros Hr. unfold startOfWeek, weekStartsOn. cbn [getDay getDate].
  pose proof (WeekDay_range t) as Hw.
  destruct (Z.ltb_spec (WeekDay t) 0); [lia|].
  replace (Day t - WeekDay t)
    with (Day t + (DateFromTime t - (0 + WeekDay t - 0) - DateFromTime t))
    in * by lia.
  rewrite setDate_time by assumption.
  pose proof (TimeWithinDay_range t) as Hτ.
  destruct (Day_MakeDate
              (Day t + (DateFromTime t - (0 + WeekDay t - 0) - DateFromTime t))
              (TimeWithinDay t) Hτ) as [HD _].
  rewrite setHours_time
    by (rewrite ?HD; first [assumption | cbv; split; congruence]).
  rewrite HD.
  change (MakeTime 0 0 0 0) with 0.
  unfold midnight, MakeDate. f_equal. lia.
Qed.

Lemma endOfWeek_time t :
  day_in_range (Day t + 6 - WeekDay t) →
  endOfWeek (Time t) = Time (MakeDate (Day t + 6 - WeekDay t) 86399999).
Proof.
  intros Hr. unfold endOfWeek, weekStartsOn. cbn [getDay getDate].
  pose proof (WeekDay_range t) as Hw.
  destruct (Z.ltb_spec (WeekDay t) 0); [lia|].
  replace (Day t + 6 - WeekDay t)
    with (Day t + (DateFromTime t + (0 + 6 - (WeekDay t - 0)) - DateFromTime t))
    in * by lia.
  rewrite setDate_time by assumption.
  pose proof (TimeWithinDay_range t) as Hτ.
  destruct (Day_MakeDate
              (Day t + (DateFromTime t + (0 + 6 - (WeekDay t - 0)) - DateFromTime t))
              (TimeWithinDay t) Hτ) as [HD _].
  rewrite setHours_time
    by (rewrite ?HD; first [assumption | cbv; split; congruence]).
  rewrite HD.
  reflexivity.
Qed.

Lemma Day_midnight a : Day (a * msPerDay) = a.
Proof. unfold Day, msPerDay. apply Z.div_mul. lia. Qed.

Lemma midnight_inj : Inj (=) (=) midnight.
Proof. intros a b H. unfold midnight, msPerDay in H. injection H. lia. Qed.

(** Every time value of a Date has a start of day in range. *)
Lemma startOfDay_time t :
  Z.abs t ≤ maxTime → startOfDay (Time t) = midnight (Day t).
Proof.
  intros Ht. unfold startOfDay, setHours, midnight.
  change (MakeTime 0 0 0 0) with 0. unfold MakeDate. rewrite Z.add_0_r.
  unfold TimeClip.
  destruct (Z.ltb_spec maxTime (Z.abs (Day t * msPerDay))) as [Hout |];
    [| reflexivity].
  exfalso. revert Ht Hout. unfold Day, maxTime, msPerDay.
  Z.to_euclidean_division_equations. lia.
Qed.

(** Two Dates are on the same day when their day numbers are equal. *)
Lemma isSameDay_Day a b :
  Z.abs a ≤ maxTime → Z.abs b ≤ maxTime →
  isSameDay (Time a) (Time b) = (Day a =? Day b).
Proof.
  intros Ha Hb. unfold isSameDay. rewrite !startOfDay_time by assumption.
  cbn [getTime midnight]. unfold msPerDay.
  destruct (Z.eqb_spec (Day a) (Day b)) as [-> | Hne].
  - apply Z.eqb_refl.
  - apply Z.eqb_neq. lia.
Qed.

End DateFacts.

(** ** The month grid *)

Section CalendarGrid.
Local Open Scope Z_scope.

Lemma addDays_midnight a :
  day_in_range (a + 1) → addDays (midnight a) 1 = midnight (a + 1).
Proof.
  intros Hr. unfold midnight. rewrite addDays_time.
  - f_equal. lia.
  - now rewrite Day_midnight.
Qed.

Lemma fill_week_midnight i : ∀ days a,
  (∀ j, 0 < j ≤ Z.of_nat i → day_in_range (a + j)) →
  fill_week i days (midnight a) =
  (days ++ (midnight <$> seqZ a (Z.of_nat i)), midnight (a + Z.of_nat i)).
Proof.
  induction i as [| i IH]; intros days a Hr.
  - cbn. now rewrite app_nil_r, Z.add_0_r.
  - cbn [fill_week]. rewrite addDays_midnight by (apply Hr; lia).
    rewrite IH by (intros j Hj; replace (a + 1 + j) with (a + (1 + j)) by lia;
                   apply Hr; lia).
    rewrite (seqZ_cons a (Z.of_nat (S i))) by lia.
    rewrite fmap_cons, <- app_assoc. cbn [app].
    replace (Z.succ a) with (a + 1) by lia.
    replace (Z.pred (Z.of_nat (S i))) with (Z.of_nat i) by lia.
    replace (a + Z.of_nat (S i)) with (a + 1 + Z.of_nat i) by lia.
    reflexivity.
Qed.

Lemma calendarDays_loop_rows k : ∀ fuel rows a,
  (k < fuel)%nat →
  (∀ j, 0 < j ≤ 7 * Z.of_nat k → day_in_range (a + j)) →
  calendarDays_loop fuel (Time (MakeDate (a + 7 * Z.of_nat k - 1) 86399999))
                    rows (midnight a)
  = Some (rows ++ week_rows a k).
Proof.
  induction k as [| k IH]; intros fuel rows a Hf Hr;
    (destruct fuel as [| fuel]; [lia|]); cbn [calendarDays_loop week_rows].
  - unfold midnight, date_leb, MakeDate, msPerDay.
    destruct (Z.leb_spec (a * 86400000)
                ((a + 7 * Z.of_nat 0 - 1) * 86400000 + 86399999)); [lia|].
    now rewrite app_nil_r.
  - unfold midnight at 1. unfold date_leb, MakeDate, msPerDay.
    destruct (Z.leb_spec (a * 86400000)
                ((a + 7 * Z.of_nat (S k) - 1) * 86400000 + 86399999)); [|lia].
    rewrite (fill_week_midnight 7) by (intros j Hj; apply Hr; lia).
    cbn [app].
    replace (a + 7 * Z.of_nat (S k) - 1) with (a + 7 + 7 * Z.of_nat k - 1)
      by lia.
    fold msPerDay. fold (MakeDate (a + 7 + 7 * Z.of_nat k - 1) 86399999).
    change (Z.of_nat 7) with 7.
    rewrite IH.
    + now rewrite <- app_assoc.
    + lia.
    + intros j Hj. replace (a + 7 + j) with (a + (7 + j)) by lia.
      apply Hr. lia.
Qed.

Lemma week_rows_shape a k :
  (a + 4) mod 7 = 0 →
  Forall (fun row => length row = 7%nat ∧ head row ≫= getDay = Some 0)
         (week_rows a k).
Proof.
  revert a. induction k as [| k IH]; intros a Ha; cbn [week_rows];
    constructor.
  - split; [reflexivity|].
    rewrite (seqZ_cons a 7) by lia. cbn. unfold WeekDay.
    rewrite Day_midnight. now rewrite Ha.
  - apply IH. rewrite <- Ha.
    replace (a + 7 + 4) with (a + 4 + 1 * 7) by lia. apply Z.mod_add. lia.
Qed.

Lemma week_rows_concat a k :
  concat (week_rows a k) = midnight <$> seqZ a (7 * Z.of_nat k).
Proof.
  revert a. induction k as [| k IH]; intros a; cbn [week_rows concat].
  - reflexivity.
  - rewrite IH, <- fmap_app. f_equal.
    replace (7 * Z.of_nat (S k)) with (7 + 7 * Z.of_nat k) by lia.
    rewrite seqZ_app by lia. reflexivity.
Qed.

End CalendarGrid.

Section MonthGrid.
Local Open Scope Z_scope.

Lemma MakeDay_first y m :
  0 ≤ m ≤ 11 →
  MakeDay y m 1 = DayFromYear y + monthStart m (InLeapYearOf y).
Proof. intros Hm. rewrite MakeDay_month by assumption. lia. Qed.

Lemma MakeDay_last y m :
  0 ≤ m ≤ 11 →
  MakeDay y (m + 1) 0 = DayFromYear y + monthStart (m + 1) (InLeapYearOf y) - 1.
Proof.
  intros Hm. destruct (Z.eq_dec m 11) as [-> | Hne].
  - unfold MakeDay. change ((11 + 1) / 12) with 1.
    change ((11 + 1) mod 12) with 0.
    pose proof (DayFromYear_succ y) as Hs. unfold InLeapYearOf at 2.
    change (monthStart 0 (InLeapYearOf (y + 1))) with 0.
    change (monthStart (11 + 1) (DaysInYear y - 365))
      with (365 + (DaysInYear y - 365)).
    lia.
  - rewrite MakeDay_month by lia. lia.
Qed.

(** The days of month [m] of year [y] are those from [MakeDay y m 1] to
    [MakeDay y (m + 1) 0]. *)
Lemma month_days y m d :
  0 ≤ m ≤ 11 →
  MakeDay y m 1 ≤ d ≤ MakeDay y (m + 1) 0 ↔
  YearFromDay d = y ∧ MonthFromDay d = m.
Proof.
  intros Hm. rewrite MakeDay_first, MakeDay_last by assumption. split.
  - intros Hd.
    destruct (civil_of_MakeDay y m
                (d - (DayFromYear y + monthStart m (InLeapYearOf y)) + 1))
      as (Hy' & Hm' & _); [assumption | lia |].
    rewrite MakeDay_month in Hy', Hm' by assumption.
    replace (DayFromYear y + monthStart m (InLeapYearOf y) +
             (d - (DayFromYear y + monthStart m (InLeapYearOf y)) + 1) - 1)
      with d in * by lia.
    auto.
  - intros [Hy' Hm']. pose proof (MonthFromDay_bounds d) as Hb.
    cbn zeta in Hb. rewrite Hy', Hm' in Hb. unfold DayWithinYearOf in Hb.
    rewrite Hy' in Hb. lia.
Qed.

Lemma DayFromYear_valid y :
  -271820 ≤ y ≤ 275759 →
  -99999744 ≤ DayFromYear y ∧ DayFromYear (y + 1) ≤ 99999744.
Proof.
  intros Hy.
  pose proof (DayFromYear_mono (-271820) y).
  pose proof (DayFromYear_mono (y + 1) 275760).
  change (DayFromYear (-271820)) with (-99999744) in *.
  change (DayFromYear 275760) with 99999744 in *. lia.
Qed.

End MonthGrid.

(** C2.  For a reference date in a valid month, [calendarDays] returns (with
    fuel for seven evaluations of the loop condition, or more) rows of
    seven cells, each row starting on a Sunday; the cells are the
    consecutive midnights from the Sunday on or before the 1st of the month
    to the Saturday on or after its last day, without repetition, and every
    day of the month is among them. *)
Theorem calendarDays_month_grid (y m t : Z) (fuel : nat) :
  valid_month y m →
  YearFromTime t = y → MonthFromTime t = m →
  (7 ≤ fuel)%nat →
  let first := MakeDay y m 1 in
  let last := MakeDay y (m + 1) 0 in
  ∃ (rows : list (list Date)) (s e : Z),
    calendarDays fuel (Time t) = Some rows ∧
    Forall (fun row => length row = 7%nat ∧ head row ≫= getDay = Some 0%Z)
           rows ∧
    concat rows = midnight <$> seqZ s (e - s + 1) ∧
    ((first - 7 < s ≤ first)%Z ∧ WeekDay (s * msPerDay) = 0%Z) ∧
    ((last ≤ e < last + 7)%Z ∧ WeekDay (e * msPerDay) = 6%Z) ∧
    NoDup (concat rows) ∧
    (∀ d, (first ≤ d ≤ last)%Z ↔ YearFromDay d = y ∧ MonthFromDay d = m) ∧
    (∀ d, YearFromDay d = y → MonthFromDay d = m →
          midnight d ∈ concat rows).
Proof.
  intros [Hy Hm] Hyt Hmt Hfuel first last.
  pose proof (MakeDay_first y m Hm) as Hfirst. fold first in Hfirst.
  pose proof (MakeDay_last y m Hm) as Hlast. fold last in Hlast.
  pose proof (DayFromYear_valid y Hy) as [Hlo Hhi].
  pose proof (DayFromYear_succ y) as Hsucc.
  assert (Hl : (0 ≤ InLeapYearOf y ≤ 1)%Z)
    by (destruct (InLeapYearOf_cases y); lia).
  pose proof (monthStart_mono m _ Hl Hm) as [Hms1 Hms2].
  assert (Hdim : (28 ≤ last - first + 1 ≤ 31)%Z).
  { rewrite Hfirst, Hlast. revert Hl. generalize (InLeapYearOf y).
    intros leap Hl. unfold monthStart. clear -Hm Hl. case_ltb; lia. }
  assert (Hleap : InLeapYearOf y = (DaysInYear y - 365)%Z) by reflexivity.
  set (s := (first - (first + 4) mod 7)%Z).
  set (e := (last + 6 - (last + 4) mod 7)%Z).
  set (k := Z.to_nat ((e - s + 1) / 7)).
  assert (Hs : ((first - 7 < s ≤ first) ∧ (s + 4) mod 7 = 0)%Z)
    by (unfold s; Z.to_euclidean_division_equations; lia).
  assert (He : ((last ≤ e < last + 7) ∧ (e + 4) mod 7 = 6)%Z)
    by (unfold e; Z.to_euclidean_division_equations; lia).
  assert (Hk : ((e - s + 1) = 7 * Z.of_nat k ∧ Z.of_nat k ≤ 6)%Z).
  { unfold k. rewrite Z2Nat.id by (apply Z.div_pos; lia).
    destruct Hs as [Hs1 Hs2], He as [He1 He2].
    clearbody s e. clear -Hs1 Hs2 He1 He2 Hdim.
    Z.to_euclidean_division_equations. lia. }
  destruct Hs as [Hs1 Hs2], He as [He1 He2], Hk as [Hk1 Hk2].
  assert (Hcal : calendarDays fuel (Time t) = Some (week_rows s k)).
  { unfold calendarDays.
    rewrite startOfMonth_time; rewrite Hyt, Hmt; fold first;
      [| unfold day_in_range; lia].
    destruct (civil_of_MakeDay y m 1 Hm ltac:(lia)) as (Hy1 & Hm1 & Hd1).
    fold first in Hy1, Hm1, Hd1.
    assert (Hyf : YearFromTime (first * msPerDay) = y)
      by (unfold YearFromTime; now rewrite Day_midnight).
    assert (Hmf : MonthFromTime (first * msPerDay) = m)
      by (unfold MonthFromTime; now rewrite Day_midnight).
    unfold midnight at 1 2.
    rewrite endOfMonth_time; rewrite Hyf, Hmf; fold last;
      [| unfold day_in_range; lia].
    rewrite startOfWeek_time; unfold WeekDay; rewrite Day_midnight; fold s;
      [| unfold day_in_range; lia].
    destruct (Day_MakeDate last 86399999 ltac:(unfold msPerDay; lia))
      as [HDl _].
    rewrite endOfWeek_time; unfold WeekDay; rewrite HDl; fold e;
      [| unfold day_in_range; lia].
    replace e with (s + 7 * Z.of_nat k - 1)%Z by lia.
    rewrite calendarDays_loop_rows; [reflexivity | lia |].
    intros j Hj. unfold day_in_range. lia. }
  assert (Hcat : concat (week_rows s k) = midnight <$> seqZ s (e - s + 1))
    by (rewrite week_rows_concat; now rewrite Hk1).
  assert (Hmonth : ∀ d, (first ≤ d ≤ last)%Z ↔
                        YearFromDay d = y ∧ MonthFromDay d = m)
    by (intros d; now apply month_days).
  exists (week_rows s k), s, e. split_and!; try assumption; try lia.
  - now apply week_rows_shape.
  - unfold WeekDay. now rewrite Day_midnight.
  - unfold WeekDay. now rewrite Day_midnight.
  - rewrite Hcat. pose proof midnight_inj as Hinj.
    apply (NoDup_fmap_2 midnight). apply NoDup_seqZ.
  - intros d Hyd Hmd. rewrite Hcat. apply list_elem_of_fmap_2.
    apply elem_of_seqZ. specialize (Hmonth d). lia.
Qed.

(** The grid of November 2025, from a reference inside that month. *)
Lemma calendarDays_month_grid_witness :
  ∃ (rows : list (list Date)) (s e : Z),
    calendarDays 7 (Time 1762128012345) = Some rows ∧
    Forall (fun row => length row = 7%nat ∧ head row ≫= getDay = Some 0%Z)
           rows ∧
    concat rows = midnight <$> seqZ s (e - s + 1) ∧
    ((MakeDay 2025 10 1 - 7 < s ≤ MakeDay 2025 10 1)%Z
     ∧ WeekDay (s * msPerDay) = 0%Z) ∧
    ((MakeDay 2025 11 0 ≤ e < MakeDay 2025 11 0 + 7)%Z
     ∧ WeekDay (e * msPerDay) = 6%Z) ∧
    NoDup (concat rows) ∧
    (∀ d, (MakeDay 2025 10 1 ≤ d ≤ MakeDay 2025 11 0)%Z ↔
          YearFromDay d = 2025%Z ∧ MonthFromDay d = 10%Z) ∧
    (∀ d, YearFromDay d = 2025%Z → MonthFromDay d = 10%Z →
          midnight d ∈ concat rows).
Proof.
  apply (calendarDays_month_grid 2025 10 1762128012345 7).
  - unfold valid_month. lia.
  - reflexivity.
  - reflexivity.
  - lia.
Defined.

(** ** The toast writer *)

Lemma mapW_fst {A B : Type} (f : A → W B) (l : list A) :
  (mapW f l).1 = (fun x => (f x).1) <$> l.
Proof.
  induction l as [| x l IH]; [reflexivity|]. cbn [mapW fmap list_fmap].
  unfold mbind, W_bind, mret, W_ret. rewrite <- IH.
  destruct (f x) as [y t1], (mapW f l) as [ys t2]. reflexivity.
Qed.

Lemma mapW_snd {A B : Type} (f : A → W B) (l : list A) :
  (mapW f l).2 = concat ((fun x => (f x).2) <$> l).
Proof.
  induction l as [| x l IH]; [reflexivity|]. cbn [mapW fmap list_fmap concat].
  unfold mbind, W_bind, mret, W_ret. rewrite <- IH.
  destruct (f x) as [y t1], (mapW f l) as [ys t2]. cbn.
  now rewrite app_nil_r.
Qed.

(** ** handleRsvp *)

Section RsvpFacts.
Variable mockUser : Attendee.t.

Lemma isMockUser_spec a :
  isMockUser mockUser a = true ↔ Attendee.id a = Attendee.id mockUser.
Proof. unfold isMockUser. apply String.eqb_eq. Qed.

Lemma isAttending_spec event :
  existsb (isMockUser mockUser) (Event.attendees event) = true
  ↔ isMember mockUser event.
Proof.
  rewrite existsb_exists. unfold isMember.
  split; intros (a & Ha & Hid); exists a; split;
    solve [now apply list_elem_of_In | now apply isMockUser_spec].
Qed.

Lemma isFull_spec event :
  capacity_nonzero event →
  isFull event = true ↔ capacity_reached event.
Proof.
  unfold capacity_nonzero, isFull, capacity_reached, attendeeCount.
  intros Hnz. destruct (Event.maxAttendees event) as [m |].
  - split.
    + intros H. apply andb_true_iff in H as [_ H]. eauto.
    + intros (m' & Hm & Hge). injection Hm as <-. apply andb_true_iff.
      split; [| assumption].
      destruct m as [| z]; [discriminate Hge|]. cbn.
      destruct (Z.eqb_spec z 0) as [-> | _]; [congruence | reflexivity].
  - split; [discriminate|]. intros (m & Hm & _). discriminate.
Qed.

(** The event that the callback returns. *)
Lemma rsvp_fst eventId event :
  (rsvp mockUser eventId event).1 =
  if String.eqb (Event.id event) eventId then
    if existsb (isMockUser mockUser) (Event.attendees event) then
      Event.with_attendees event
        (List.filter (fun a => negb (isMockUser mockUser a))
                     (Event.attendees event))
    else if isFull event then event
    else Event.with_attendees event (Event.attendees event ++ [mockUser])
  else event.
Proof.
  unfold rsvp. destruct (String.eqb (Event.id event) eventId); [|reflexivity].
  destruct (existsb _ (Event.attendees event)); [reflexivity|].
  destruct (isFull event); reflexivity.
Qed.

Lemma rsvp_other eventId event :
  Event.id event ≠ eventId → rsvp mockUser eventId event = mret event.
Proof.
  intros Hne. unfold rsvp.
  destruct (String.eqb_spec (Event.id event) eventId); [contradiction|].
  reflexivity.
Qed.

Lemma handleRsvp_events eventId st :
  events (handleRsvp mockUser eventId st) =
  (fun event => (rsvp mockUser eventId event).1) <$> events st.
Proof.
  unfold handleRsvp, rsvpEvents. rewrite <- mapW_fst.
  destruct (mapW (rsvp mockUser eventId) (events st)). reflexivity.
Qed.

Lemma handleRsvp_toasts eventId st :
  toasts (handleRsvp mockUser eventId st) =
  toasts st
  ++ concat ((fun event => (rsvp mockUser eventId event).2) <$> events st).
Proof.
  unfold handleRsvp, rsvpEvents. rewrite <- mapW_snd.
  destruct (mapW (rsvp mockUser eventId) (events st)). reflexivity.
Qed.

Lemma with_attendees_same event :
  Event.with_attendees event (Event.attendees event) = event.
Proof. now destruct event. Qed.

Lemma rsvp_keeps_fields eventId event :
  (rsvp mockUser eventId event).1 =
  Event.with_attendees event
    (Event.attendees (rsvp mockUser eventId event).1).
Proof.
  rewrite rsvp_fst.
  repeat match goal with
         | |- context [if ?b then _ else _] => destruct b
         end; cbn; now rewrite ?with_attendees_same.
Qed.

Lemma app_one_neq {A : Type} (l : list A) (x : A) : l ++ [x] ≠ l.
Proof.
  intros H. apply (f_equal length) in H. rewrite length_app in H.
  cbn in H. lia.
Qed.

End RsvpFacts.

(** C1.  In the list that [handleRsvp] returns, a targeted event has the
    acting attendee toggled.  A member is removed, whatever the capacity.
    A non-member of an event whose [maxAttendees] is not zero is appended
    at the end, unless [maxAttendees] is set and the attendee count is
    [>=] it; in exactly that case the attendee list is unchanged. *)
Theorem handleRsvp_toggles (me : Attendee.t) (eventId : string)
    (st : AppState) (i : nat) (event : Event.t) :
  events st !! i = Some event →
  Event.id event = eventId →
  ∃ event',
    events (handleRsvp me eventId st) !! i = Some event' ∧
    (isMember me event →
       Event.attendees event' =
         List.filter
           (fun a => negb (String.eqb (Attendee.id a) (Attendee.id me)))
           (Event.attendees event)
       ∧ ¬ isMember me event') ∧
    (¬ isMember me event → capacity_nonzero event →
       (¬ capacity_reached event →
          Event.attendees event' = Event.attendees event ++ [me]) ∧
       (Event.attendees event' = Event.attendees event
          ↔ capacity_reached event)).
Proof.
  intros Hi Hid.
  exists (rsvp me eventId event).1. split.
  { rewrite handleRsvp_events, list_lookup_fmap, Hi. reflexivity. }
  rewrite rsvp_fst.
  destruct (String.eqb_spec (Event.id event) eventId) as [_ | Hne];
    [| contradiction].
  pose proof (isAttending_spec me event) as Hatt.
  pose proof (isFull_spec event) as Hfull.
  destruct (existsb (isMockUser me) (Event.attendees event)).
  - split.
    + intros _. split; [reflexivity|].
      intros (a & Ha & Haid). cbn in Ha.
      apply list_elem_of_In, filter_In in Ha as [_ Hn].
      apply isMockUser_spec in Haid. rewrite Haid in Hn. discriminate.
    + intros Hn. exfalso. apply Hn, Hatt. reflexivity.
  - split; [intros Hm; apply Hatt in Hm; discriminate|].
    intros _ Hnz. specialize (Hfull Hnz). destruct (isFull event).
    + split.
      * intros Hn. exfalso. apply Hn, Hfull. reflexivity.
      * split; [intros _; now apply Hfull | reflexivity].
    + cbn. split; [reflexivity|]. split.
      * intros H. now apply app_one_neq in H.
      * intros H. apply Hfull in H. discriminate.
Qed.

(** C8.  [handleRsvp] returns a list of the same length in which every event
    with another id is the event it was, and the event at any position
    differs from the one before at most in [attendees]; the selection and
    the modal are untouched; when no event has the target id, the list is
    returned as it was and no toast is shown. *)
Theorem handleRsvp_frame (me : Attendee.t) (eventId : string) (st : AppState) :
  let st' := handleRsvp me eventId st in
  length (events st') = length (events st) ∧
  (∀ i event, events st !! i = Some event → Event.id event ≠ eventId →
              events st' !! i = Some event) ∧
  (∀ i event, events st !! i = Some event →
     ∃ event', events st' !! i = Some event' ∧
               event' = Event.with_attendees event (Event.attendees event')) ∧
  selectedDate st' = selectedDate st ∧
  isAddEventModalOpen st' = isAddEventModalOpen st ∧
  ((∀ event, event ∈ events st → Event.id event ≠ eventId) →
   events st' = events st ∧ toasts st' = toasts st).
Proof.
  intros st'. unfold st'. split_and!.
  - rewrite handleRsvp_events. apply length_fmap.
  - intros i event Hi Hne.
    rewrite handleRsvp_events, list_lookup_fmap, Hi. cbn.
    now rewrite rsvp_other.
  - intros i event Hi. exists (rsvp me eventId event).1. split.
    + rewrite handleRsvp_events, list_lookup_fmap, Hi. reflexivity.
    + apply rsvp_keeps_fields.
  - unfold handleRsvp. now destruct (rsvpEvents me eventId (events st)).
  - unfold handleRsvp. now destruct (rsvpEvents me eventId (events st)).
  - intros Hnone. rewrite handleRsvp_events, handleRsvp_toasts.
    assert (Hall : Forall (fun event => rsvp me eventId event = mret event)
                          (events st)).
    { apply Forall_forall. intros event Hin. apply rsvp_other, Hnone, Hin. }
    clear Hnone. induction Hall as [| event l Hev Hl IH]; cbn.
    + now rewrite app_nil_r.
    + destruct IH as [IH1 IH2]. rewrite Hev. cbn. split.
      * f_equal. exact IH1.
      * exact IH2.
Qed.

(** ** The roster invariants *)

Section RosterInvariants.
Variable mockUser : Attendee.t.

Lemma NoDup_fmap_filter {A B : Type} (f : A → B) (p : A → bool) (l : list A) :
  NoDup (f <$> l) → NoDup (f <$> List.filter p l).
Proof.
  induction l as [| x l IH]; cbn; [auto|].
  intros Hnd. apply NoDup_cons in Hnd as [Hx Hl].
  destruct (p x); cbn; [| auto].
  apply NoDup_cons. split; [| auto].
  intros Hin. apply Hx. apply list_elem_of_fmap in Hin as (y & -> & Hy).
  apply list_elem_of_fmap. exists y. split; [reflexivity|].
  apply list_elem_of_In. apply list_elem_of_In, filter_In in Hy. tauto.
Qed.

Lemma filter_length_le {A : Type} (p : A → bool) (l : list A) :
  (length (List.filter p l) ≤ length l)%nat.
Proof.
  induction l as [| x l IH]; cbn; [lia|]. destruct (p x); cbn; lia.
Qed.

Lemma rsvp_preserves_roster_inv eventId event :
  roster_inv event → capacity_nonzero event →
  roster_inv (rsvp mockUser eventId event).1.
Proof.
  intros [Hnd Hcap] Hnz. rewrite rsvp_fst.
  destruct (String.eqb (Event.id event) eventId); [| now split].
  destruct (existsb (isMockUser mockUser) (Event.attendees event)) eqn:Hatt.
  - split.
    + unfold no_duplicate_ids. cbn. now apply NoDup_fmap_filter.
    + intros m Hm. cbn in Hm. specialize (Hcap m Hm).
      unfold attendeeCount in *. cbn.
      destruct m as [| z]; [discriminate Hcap|]. cbn in *.
      pose proof (filter_length_le
                    (fun a => negb (isMockUser mockUser a))
                    (Event.attendees event)).
      apply Z.leb_le. apply Z.leb_le in Hcap. lia.
  - destruct (isFull event) eqn:Hfull; [now split|]. split.
    + unfold no_duplicate_ids in *. cbn. rewrite fmap_app. cbn.
      apply NoDup_app. split_and!; [assumption | | apply NoDup_singleton].
      intros x Hx Hx'. apply list_elem_of_singleton in Hx'. subst x.
      apply list_elem_of_fmap in Hx as (a & Ha & Hin).
      assert (isMember mockUser event) as Hmem by (exists a; auto).
      apply isAttending_spec in Hmem. congruence.
    + intros m Hm. cbn in Hm. specialize (Hcap m Hm).
      unfold isFull in Hfull. rewrite Hm in Hfull.
      unfold capacity_nonzero in Hnz. rewrite Hm in Hnz.
      unfold attendeeCount in *. cbn. rewrite length_app. cbn.
      destruct m as [| z]; [discriminate Hcap|]. cbn in *.
      destruct (Z.eqb_spec z 0) as [-> | Hz]; [congruence|]. cbn in Hfull.
      apply Z.leb_le. apply Z.leb_gt in Hfull. lia.
Qed.

End RosterInvariants.

(** Where the capacities are as the data model has them.  From a list whose
    events have no duplicate attendee id, respect their capacity and have a
    non-zero [maxAttendees] when it is set:
    every [handleRsvp] returns a list whose events have no duplicate
    attendee id and respect their capacity; every successful
    [handleAddEvent] appends one event whose attendees are the creator
    alone, leaves the other events as they were, and the new event respects
    a capacity that is absent or at least one. *)
Theorem mutations_preserve_roster_invariants (me : Attendee.t) (st : AppState) :
  Forall roster_inv (events st) →
  Forall capacity_nonzero (events st) →
  (∀ eventId, Forall roster_inv (events (handleRsvp me eventId st))) ∧
  (∀ (parseISO : string → Date) (toISOString : Date → string) (now : Z)
     (newEventData : NewEventData.t),
     isValid (parseISO (NewEventData.date newEventData)) = true →
     ∃ newEvent,
       events (handleAddEvent parseISO toISOString me now newEventData st)
         = events st ++ [newEvent] ∧
       Event.attendees newEvent = [me] ∧
       Event.maxAttendees newEvent = NewEventData.maxAttendees newEventData ∧
       Forall no_duplicate_ids (events st ++ [newEvent]) ∧
       ((∀ m, Event.maxAttendees newEvent = Some m → ∃ z, m = Num z ∧ (1 ≤ z)%Z) →
        Forall roster_inv (events st ++ [newEvent]))).
Proof.
  intros Hinv Hnz. split.
  - intros eventId. rewrite handleRsvp_events. apply Forall_fmap.
    apply Forall_forall. intros event Hin. cbn.
    apply rsvp_preserves_roster_inv.
    + now apply (proj1 (Forall_forall _ _) Hinv).
    + now apply (proj1 (Forall_forall _ _) Hnz).
  - intros parseISO toISOString now newEventData Hvalid.
    unfold handleAddEvent. rewrite Hvalid. cbn [negb events].
    eexists. split; [reflexivity|]. cbn [Event.attendees Event.maxAttendees].
    assert (Hnew : no_duplicate_ids
              (Event.mk ("evt" +:+ pretty now)
                 (NewEventData.title newEventData)
                 (toISOString (parseISO (NewEventData.date newEventData)))
                 (NewEventData.description newEventData)
                 (NewEventData.location newEventData) [me]
                 (NewEventData.maxAttendees newEventData) me)).
    { unfold no_duplicate_ids. cbn. apply NoDup_singleton. }
    split_and!; try reflexivity.
    + apply Forall_app. split.
      * eapply Forall_impl; [exact Hinv|]. now intros event [H _].
      * now constructor.
    + intros Hpos. apply Forall_app. split; [assumption|].
      constructor; [| constructor]. split; [assumption|].
      intros m Hm. cbn in Hm. destruct (Hpos m Hm) as (z & -> & Hz).
      unfold attendeeCount. cbn. apply Z.leb_le. lia.
Qed.

(** The capacity boundary: [user1] asks to join an event with one slot that
    [user2] holds. *)
Lemma handleRsvp_toggles_witness :
  ∃ event',
    events (handleRsvp user1 "evt1" oneSlotState) !! 0%nat = Some event' ∧
    (isMember user1 oneSlotEvent →
       Event.attendees event' =
         List.filter
           (fun a => negb (String.eqb (Attendee.id a) (Attendee.id user1)))
           (Event.attendees oneSlotEvent)
       ∧ ¬ isMember user1 event') ∧
    (¬ isMember user1 oneSlotEvent → capacity_nonzero oneSlotEvent →
       (¬ capacity_reached oneSlotEvent →
          Event.attendees event' = Event.attendees oneSlotEvent ++ [user1]) ∧
       (Event.attendees event' = Event.attendees oneSlotEvent
          ↔ capacity_reached oneSlotEvent)).
Proof.
  apply (handleRsvp_toggles user1 "evt1" oneSlotState 0 oneSlotEvent).
  - reflexivity.
  - reflexivity.
Defined.

Example handleRsvp_rejected_when_full :
  handleRsvp user1 "evt1" oneSlotState =
  mkApp [oneSlotEvent] None false
        [mkToast ("Sorry, " +:+ dquote +:+ "Team Sync" +:+ dquote +:+ " is full.")
                 error].
Proof. reflexivity. Qed.

Example handleRsvp_leave_then_rejoin :
  events (handleRsvp user2 "evt1" (handleRsvp user2 "evt1" oneSlotState))
  = [oneSlotEvent].
Proof. reflexivity. Qed.

Example handleRsvp_join_then_leave :
  let roomy := Event.mk "evt2" "Hike" "2030-01-02T09:00" EmptyString "Trail"
                        [user2] None user2 in
  let st := mkApp [oneSlotEvent; roomy] None false [] in
  Event.attendees <$> events (handleRsvp user1 "evt2" st)
    = [[user2]; [user2; user1]] ∧
  events (handleRsvp user1 "evt2" (handleRsvp user1 "evt2" st)) = events st.
Proof. split; reflexivity. Qed.

(** A [maxAttendees] of 0, which the data model excludes, is falsy in the
    test for a full event: the join goes through. *)
Example handleRsvp_zero_maxAttendees :
  let event := Event.mk "evt0" "Closed" "2030-01-03T09:00" EmptyString "Room"
                        [] (Some (Num 0)) user2 in
  Event.attendees <$> events (handleRsvp user1 "evt0" (mkApp [event] None false []))
  = [[user1]].
Proof. reflexivity. Qed.

Lemma mutations_preserve_roster_invariants_witness :
  (∀ eventId,
     Forall roster_inv (events (handleRsvp user1 eventId oneSlotState))) ∧
  (∀ (parseISO : string → Date) (toISOString : Date → string) (now : Z)
     (newEventData : NewEventData.t),
     isValid (parseISO (NewEventData.date newEventData)) = true →
     ∃ newEvent,
       events (handleAddEvent parseISO toISOString user1 now newEventData
                              oneSlotState)
         = events oneSlotState ++ [newEvent] ∧
       Event.attendees newEvent = [user1] ∧
       Event.maxAttendees newEvent = NewEventData.maxAttendees newEventData ∧
       Forall no_duplicate_ids (events oneSlotState ++ [newEvent]) ∧
       ((∀ m, Event.maxAttendees newEvent = Some m →
              ∃ z, m = Num z ∧ (1 ≤ z)%Z) →
        Forall roster_inv (events oneSlotState ++ [newEvent]))).
Proof.
  apply (mutations_preserve_roster_invariants user1 oneSlotState).
  - constructor; [| constructor]. split.
    + unfold no_duplicate_ids. cbn. apply NoDup_singleton.
    + intros m Hm. injection Hm as <-. reflexivity.
  - constructor; [discriminate | constructor].
Defined.

(** ** The stable sort *)

Section SortFacts.
Context {A : Type} (cmp : A → A → num) (key : A → Z) (P : A → Prop).
Hypothesis cmp_key :
  ∀ a b, P a → P b → cmp_gt cmp a b = (key b <? key a)%Z.

Lemma sort_insert_perm x l : sort_insert cmp x l ≡ₚ x :: l.
Proof.
  induction l as [| y l IH]; cbn; [reflexivity|].
  destruct (cmp_gt cmp x y); [| reflexivity].
  rewrite IH. apply Permutation_swap.
Qed.

Lemma sort_perm l : sort cmp l ≡ₚ l.
Proof.
  induction l as [| x l IH]; cbn; [reflexivity|].
  rewrite sort_insert_perm. now constructor.
Qed.

Lemma sort_Forall l : Forall P l → Forall P (sort cmp l).
Proof. intros H. now rewrite sort_perm. Qed.

Lemma sort_insert_sorted x l :
  P x → Forall P l →
  StronglySorted (fun a b => (key a ≤ key b)%Z) l →
  StronglySorted (fun a b => (key a ≤ key b)%Z) (sort_insert cmp x l).
Proof.
  intros Hx Hl Hs. induction Hs as [| y l Hs IH Hy]; cbn.
  - repeat constructor.
  - apply Forall_cons in Hl as [Py Pl].
    rewrite (cmp_key x y Hx Py). destruct (Z.ltb_spec (key y) (key x)).
    + constructor; [now apply IH|].
      rewrite sort_insert_perm. constructor; [lia | assumption].
    + constructor; [now constructor|].
      constructor; [assumption|].
      eapply Forall_impl; [exact Hy|]. cbn. intros; lia.
Qed.

Lemma sort_sorted l :
  Forall P l → StronglySorted (fun a b => (key a ≤ key b)%Z) (sort cmp l).
Proof.
  induction l as [| x l IH]; cbn; intros Hl; [constructor|].
  apply Forall_cons in Hl as [Px Pl].
  apply sort_insert_sorted; auto using sort_Forall.
Qed.

Lemma sort_insert_stable t x l :
  P x → Forall P l →
  List.filter (fun a => (key a =? t)%Z) (sort_insert cmp x l) =
  List.filter (fun a => (key a =? t)%Z) (x :: l).
Proof.
  intros Hx Hl. induction Hl as [| y l Py Pl IH]; [reflexivity|].
  cbn [sort_insert]. rewrite (cmp_key x y Hx Py).
  destruct (Z.ltb_spec (key y) (key x)) as [Hlt |]; [| reflexivity].
  cbn [List.filter] in *. rewrite IH.
  destruct (Z.eqb_spec (key x) t), (Z.eqb_spec (key y) t);
    solve [reflexivity | lia].
Qed.

Lemma sort_stable t l :
  Forall P l →
  List.filter (fun a => (key a =? t)%Z) (sort cmp l) =
  List.filter (fun a => (key a =? t)%Z) l.
Proof.
  induction l as [| x l IH]; cbn [sort]; intros Hl; [reflexivity|].
  apply Forall_cons in Hl as [Px Pl].
  rewrite sort_insert_stable by auto using sort_Forall.
  cbn [List.filter]. now rewrite IH.
Qed.
End SortFacts.

Lemma StronglySorted_on {A : Type} (P : A → Prop) (R R' : A → A → Prop)
    (l : list A) :
  (∀ a b, P a → P b → R a b → R' a b) →
  Forall P l → StronglySorted R l → StronglySorted R' l.
Proof.
  intros Himp Hl Hs. induction Hs as [| x l Hs IH Hx]; [constructor|].
  apply Forall_cons in Hl as [Px Pl]. constructor; [now apply IH|].
  apply Forall_forall. intros y Hy. apply Himp; auto.
  - now apply (proj1 (Forall_forall _ _) Pl).
  - now apply (proj1 (Forall_forall _ _) Hx).
Qed.

(** ** eventsOnSelectedDate *)

Section SelectorFacts.
Variable parseISO : string → Date.

Lemma hasValidDate_instant event :
  hasValidDate parseISO event → eventInstant parseISO event = Some (instantKey parseISO event).
Proof.
  unfold hasValidDate, instantKey, eventInstant.
  now destruct (parseISO (Event.date event)).
Qed.

Lemma compareByTime_key a b :
  hasValidDate parseISO a → hasValidDate parseISO b →
  cmp_gt (compareByTime parseISO) a b = (instantKey parseISO b <? instantKey parseISO a)%Z.
Proof.
  intros Ha Hb. unfold cmp_gt, compareByTime.
  apply hasValidDate_instant in Ha, Hb. unfold eventInstant in Ha, Hb.
  rewrite Ha, Hb. cbn.
  destruct (Z.ltb_spec 0 (instantKey parseISO a - instantKey parseISO b)),
           (Z.ltb_spec (instantKey parseISO b) (instantKey parseISO a)); auto; lia.
Qed.

Lemma onSelectedDate_valid day l :
  Forall (hasValidDate parseISO) (List.filter (onSelectedDate parseISO day) l).
Proof.
  apply Forall_forall. intros event Hin.
  apply list_elem_of_In, filter_In in Hin as [_ H].
  unfold onSelectedDate in H. now apply andb_true_iff in H as [H _].
Qed.

Lemma atInstant_key t l :
  Forall (hasValidDate parseISO) l →
  List.filter (atInstant parseISO t) l =
  List.filter (fun a => (instantKey parseISO a =? t)%Z) l.
Proof.
  intros Hl. induction Hl as [| x l Hx Hl IH]; [reflexivity|].
  cbn [List.filter]. rewrite IH.
  replace (atInstant parseISO t x) with (instantKey parseISO x =? t)%Z; [reflexivity|].
  unfold atInstant. rewrite (hasValidDate_instant x Hx).
  destruct (Z.eqb_spec (instantKey parseISO x) t) as [-> | Hne].
  - symmetry. now apply bool_decide_eq_true.
  - symmetry. apply bool_decide_eq_false. congruence.
Qed.
End SelectorFacts.

(** C3.  For a selected day, [eventsOnSelectedDate] returns the events of the
    list whose date is valid and on that day, each as often as it occurs,
    in ascending order of instant, events of one instant in their order in
    the source list; an event whose date is invalid is not returned, and
    the result is empty when no event is on that day. *)
Theorem eventsOnSelectedDate_selects_and_sorts (parseISO : string → Date)
    (day : Date) (events : list Event.t) :
  let onDay := fun event =>
    isValid (parseISO (Event.date event))
    && isSameDay (parseISO (Event.date event)) day in
  let selected := eventsOnSelectedDate parseISO (Some day) events in
  selected ≡ₚ List.filter onDay events ∧
  (∀ event, event ∈ selected ↔
            event ∈ events
            ∧ isValid (parseISO (Event.date event)) = true
            ∧ isSameDay (parseISO (Event.date event)) day = true) ∧
  StronglySorted (instant_le parseISO) selected ∧
  (∀ t, List.filter (atInstant parseISO t) selected =
        List.filter (atInstant parseISO t) (List.filter onDay events)) ∧
  ((∀ event, event ∈ events → onDay event = false) → selected = []) ∧
  (∀ event t d,
     parseISO (Event.date event) = Time t → day = Time d →
     (Z.abs t ≤ maxTime)%Z → (Z.abs d ≤ maxTime)%Z →
     (event ∈ selected ↔ event ∈ events ∧ Day t = Day d)).
Proof.
  intros onDay selected. unfold selected, eventsOnSelectedDate.
  change (onSelectedDate parseISO day) with onDay.
  pose proof (onSelectedDate_valid parseISO day events) as Hvalid.
  change (onSelectedDate parseISO day) with onDay in Hvalid.
  pose proof (compareByTime_key parseISO) as Hcmp.
  assert (Hperm : sort (compareByTime parseISO) (List.filter onDay events)
                  ≡ₚ List.filter onDay events) by apply sort_perm.
  split_and!.
  - exact Hperm.
  - intros event. rewrite Hperm, list_elem_of_In, filter_In.
    rewrite <- list_elem_of_In. unfold onDay. now rewrite andb_true_iff.
  - apply (StronglySorted_on (hasValidDate parseISO)
             (fun a b => (instantKey parseISO a ≤ instantKey parseISO b)%Z)).
    + intros a b Ha Hb Hab. exists (instantKey parseISO a), (instantKey parseISO b).
      auto using hasValidDate_instant.
    + now apply sort_Forall.
    + now apply (sort_sorted _ _ (hasValidDate parseISO) Hcmp).
  - intros t.
    rewrite !atInstant_key
      by (try apply (sort_Forall _ (hasValidDate parseISO)); exact Hvalid).
    now apply (sort_stable _ (instantKey parseISO) (hasValidDate parseISO) Hcmp).
  - intros Hnone.
    replace (List.filter onDay events) with (@nil Event.t); [reflexivity|].
    symmetry. clear -Hnone. induction events as [| x l IH]; [reflexivity|].
    cbn. rewrite (Hnone x) by (left). apply IH.
    intros event Hin. apply Hnone. now right.
  - intros event t d Ht -> Htr Hdr.
    rewrite Hperm, list_elem_of_In, filter_In, <- list_elem_of_In.
    unfold onDay. rewrite Ht, isSameDay_Day by assumption. cbn [isValid andb].
    now rewrite Z.eqb_eq.
Qed.

(** The scenario of the specification: of two events on the selected day,
    one on another day and one with a date that does not parse, the two of
    the day are returned, the earlier first. *)
Example eventsOnSelectedDate_sample :
  eventsOnSelectedDate sampleParseISO (Some (Time 1762128000000))
    [sampleEvent "a" "2025-11-03T00:05:00"; sampleEvent "b" "2030-01-01T10:00";
     sampleEvent "c" "not-a-date"; sampleEvent "d" "2025-11-03T00:00:05"]
  = [sampleEvent "d" "2025-11-03T00:00:05";
     sampleEvent "a" "2025-11-03T00:05:00"].
Proof. reflexivity. Qed.

(** ** eventsByDate *)

Section IndexFacts.
Variable parseISO : string → Date.
Variable format : Date → string → string.

Lemma eventsWithKey_In key events event :
  event ∈ eventsWithKey parseISO format key events ↔
  event ∈ events ∧ hasValidDate parseISO event
  ∧ format (parseISO (Event.date event)) "yyyy-MM-dd" = key.
Proof.
  unfold eventsWithKey, hasValidDate.
  rewrite list_elem_of_In, filter_In, <- list_elem_of_In.
  now rewrite andb_true_iff, String.eqb_eq.
Qed.

(** The loop of [forEach], from any map. *)
Lemma eventsByDate_fold events : ∀ (map : gmap string (list Event.t)) key,
  foldl (eventsByDate_step parseISO format) map events !! key =
  match eventsWithKey parseISO format key events with
  | [] => map !! key
  | g => Some (default [] (map !! key) ++ g)
  end.
Proof.
  induction events as [| x l IH]; intros map key; [reflexivity|].
  cbn [foldl]. rewrite IH. unfold eventsByDate_step, eventsWithKey.
  cbn [List.filter].
  destruct (isValid (parseISO (Event.date x))); cbn [andb]; [| reflexivity].
  destruct (String.eqb_spec
              (format (parseISO (Event.date x)) "yyyy-MM-dd") key)
    as [-> | Hne].
  - rewrite lookup_insert_eq.
    destruct (List.filter _ l); [reflexivity|].
    cbn. now rewrite <- app_assoc.
  - now rewrite lookup_insert_ne.
Qed.

Lemma flattenGroups_insert (map : gmap string (list Event.t)) key g :
  flattenGroups (<[key := g]> map) ≡ₚ g ++ flattenGroups (delete key map).
Proof.
  rewrite <- insert_delete_eq. unfold flattenGroups.
  rewrite map_to_list_insert by apply lookup_delete_eq. reflexivity.
Qed.

Lemma flattenGroups_lookup (map : gmap string (list Event.t)) key :
  flattenGroups map ≡ₚ default [] (map !! key) ++ flattenGroups (delete key map).
Proof.
  destruct (map !! key) as [g |] eqn:Hk; cbn.
  - rewrite <- (insert_id map key g Hk) at 1. apply flattenGroups_insert.
  - now rewrite delete_id.
Qed.

Lemma flattenGroups_step (map : gmap string (list Event.t)) event :
  flattenGroups (eventsByDate_step parseISO format map event) ≡ₚ
  flattenGroups map
  ++ (if isValid (parseISO (Event.date event)) then [event] else []).
Proof.
  unfold eventsByDate_step.
  destruct (isValid (parseISO (Event.date event)));
    [| now rewrite app_nil_r].
  rewrite flattenGroups_insert.
  rewrite (flattenGroups_lookup map
             (format (parseISO (Event.date event)) "yyyy-MM-dd")).
  rewrite <- !app_assoc. apply Permutation_app_head, Permutation_app_comm.
Qed.

Lemma flattenGroups_eventsByDate events :
  flattenGroups (eventsByDate parseISO format events) ≡ₚ
  List.filter (fun event => isValid (parseISO (Event.date event))) events.
Proof.
  unfold eventsByDate. induction events as [| x l IH] using rev_ind.
  - reflexivity.
  - rewrite foldl_app. cbn [foldl]. rewrite flattenGroups_step, IH.
    rewrite List.filter_app. cbn [List.filter].
    now destruct (isValid (parseISO (Event.date x))).
Qed.
End IndexFacts.

(** C7.  [eventsByDate] maps a day key to the events of the list that have a
    valid date with that key, in their order in the list, and has no entry
    for a key that no such event has.  The groups taken together are the
    events with a valid date, each as often as it occurs; an event of a
    group has a valid date and the key of the group, so no event is in two
    groups, and every event with a valid date is in the group of its key. *)
Theorem eventsByDate_groups (parseISO : string → Date)
    (format : Date → string → string) (events : list Event.t) :
  let index := eventsByDate parseISO format events in
  let dayKey := fun event => format (parseISO (Event.date event)) "yyyy-MM-dd" in
  (∀ key, index !! key =
          match eventsWithKey parseISO format key events with
          | [] => None
          | g => Some g
          end) ∧
  flattenGroups index ≡ₚ
    List.filter (fun event => isValid (parseISO (Event.date event))) events ∧
  (∀ key g event, index !! key = Some g → event ∈ g →
     event ∈ events ∧ isValid (parseISO (Event.date event)) = true
     ∧ dayKey event = key) ∧
  (∀ key1 key2 g1 g2 event,
     index !! key1 = Some g1 → index !! key2 = Some g2 →
     event ∈ g1 → event ∈ g2 → key1 = key2) ∧
  (∀ event, event ∈ events → isValid (parseISO (Event.date event)) = true →
     ∃ g, index !! dayKey event = Some g ∧ event ∈ g).
Proof.
  intros index dayKey.
  assert (Hlookup : ∀ key, index !! key =
            match eventsWithKey parseISO format key events with
            | [] => None
            | g => Some g
            end).
  { intros key. unfold index, eventsByDate. rewrite eventsByDate_fold.
    rewrite lookup_empty. reflexivity. }
  assert (Hgroup : ∀ key g event, index !! key = Some g → event ∈ g →
            event ∈ events ∧ isValid (parseISO (Event.date event)) = true
            ∧ dayKey event = key).
  { intros key g event Hk Hin. rewrite Hlookup in Hk.
    apply (eventsWithKey_In parseISO format key events event).
    destruct (eventsWithKey parseISO format key events); [discriminate|].
    now injection Hk as <-. }
  split_and!.
  - exact Hlookup.
  - apply flattenGroups_eventsByDate.
  - exact Hgroup.
  - intros key1 key2 g1 g2 event H1 H2 Hin1 Hin2.
    destruct (Hgroup _ _ _ H1 Hin1) as (_ & _ & <-).
    destruct (Hgroup _ _ _ H2 Hin2) as (_ & _ & <-). reflexivity.
  - intros event Hin Hvalid.
    assert (Hmem : event ∈ eventsWithKey parseISO format (dayKey event) events)
      by (apply eventsWithKey_In; auto).
    rewrite Hlookup.
    destruct (eventsWithKey parseISO format (dayKey event) events) as [| y g];
      [inversion Hmem|].
    eauto.
Qed.

Example eventsByDate_sample :
  let index :=
    eventsByDate sampleParseISO sampleFormat
      [sampleEvent "a" "2025-11-03T00:05:00";
       sampleEvent "b" "2030-01-01T10:00";
       sampleEvent "c" "not-a-date";
       sampleEvent "d" "2025-11-03T00:00:05"] in
  index !! "2025-11-03" = Some [sampleEvent "a" "2025-11-03T00:05:00";
                                sampleEvent "d" "2025-11-03T00:00:05"] ∧
  index !! "2030-01-01" = Some [sampleEvent "b" "2030-01-01T10:00"] ∧
  index !! "2025-11-02" = None.
Proof. repeat split. Qed.

(** C10.  With no selected day, [eventsOnSelectedDate] returns the empty
    list, whatever the events are. *)
Theorem eventsOnSelectedDate_no_selection (parseISO : string → Date)
    (events : list Event.t) :
  eventsOnSelectedDate parseISO None events = [].
Proof. reflexivity. Qed.

(** ** validateForm and handleSubmit *)

Lemma truthy_str_false s : truthy_str s = false ↔ s = EmptyString.
Proof. destruct s; cbn; split; congruence. Qed.

Lemma errorsOf_lookup (e1 e2 e3 e4 : option string) :
  errorsOf e1 e2 e3 e4 !! "title" = e1 ∧
  errorsOf e1 e2 e3 e4 !! "date" = e2 ∧
  errorsOf e1 e2 e3 e4 !! "location" = e3 ∧
  errorsOf e1 e2 e3 e4 !! "maxAttendees" = e4.
Proof.
  unfold errorsOf, setError.
  destruct e1, e2, e3, e4; split_and!; by simplify_map_eq.
Qed.

Lemma errorsOf_fields (e1 e2 e3 e4 : option string) (field : string) :
  is_Some (errorsOf e1 e2 e3 e4 !! field) →
  field ∈ ["title"; "date"; "location"; "maxAttendees"].
Proof.
  intros Hs.
  destruct (decide (field = "title")) as [-> | H1]; [set_solver|].
  destruct (decide (field = "date")) as [-> | H2]; [set_solver|].
  destruct (decide (field = "location")) as [-> | H3]; [set_solver|].
  destruct (decide (field = "maxAttendees")) as [-> | H4]; [set_solver|].
  exfalso. destruct Hs as [msg Hmsg]. unfold errorsOf, setError in Hmsg.
  destruct e1, e2, e3, e4; by simplify_map_eq.
Qed.

Lemma errorsOf_empty (e1 e2 e3 e4 : option string) :
  errorsOf e1 e2 e3 e4 = ∅ ↔ e1 = None ∧ e2 = None ∧ e3 = None ∧ e4 = None.
Proof.
  destruct (errorsOf_lookup e1 e2 e3 e4) as (H1 & H2 & H3 & H4). split.
  - intros He. rewrite He in *. rewrite lookup_empty in *. auto.
  - intros (-> & -> & -> & ->). reflexivity.
Qed.

Section FormFacts.
Variable parseISO : string → Date.
Variables now now' : Z.
Variable f : AddEventForm.state.

Lemma validateForm_eq :
  validateForm parseISO now now' f =
  (allAccepted parseISO now now' f,
   errorsOf (titleError f) (dateError parseISO now now' f)
            (locationError f) (maxAttendeesError f)).
Proof.
  unfold validateForm, allAccepted, titleError, dateError, locationError,
    maxAttendeesError.
  destruct (negb (truthy_str (trim (AddEventForm.title f))));
  destruct (negb (truthy_str (AddEventForm.date f)));
  destruct (negb (isValid (parseISO (AddEventForm.date f))));
  destruct (isBefore (parseISO (AddEventForm.date f)) (Time now));
  destruct (isBefore (parseISO (AddEventForm.date f))
                     (TimeClip (now' - 60000)));
  destruct (negb (truthy_str (trim (AddEventForm.location f))));
  destruct (truthy_str (AddEventForm.maxAttendees f)
            && num_leb (parseInt (AddEventForm.maxAttendees f)) (Num 0));
  reflexivity.
Qed.

Lemma titleError_spec :
  is_Some (titleError f) ↔ trim (AddEventForm.title f) = EmptyString.
Proof.
  unfold titleError. rewrite <- truthy_str_false.
  destruct (truthy_str (trim (AddEventForm.title f))); cbn;
    split; intros H; [by destruct H | discriminate | reflexivity | eauto].
Qed.

Lemma locationError_spec :
  is_Some (locationError f) ↔ trim (AddEventForm.location f) = EmptyString.
Proof.
  unfold locationError. rewrite <- truthy_str_false.
  destruct (truthy_str (trim (AddEventForm.location f))); cbn;
    split; intros H; [by destruct H | discriminate | reflexivity | eauto].
Qed.

Lemma maxAttendeesError_spec :
  is_Some (maxAttendeesError f) ↔ maxRejected f.
Proof.
  unfold maxAttendeesError, maxRejected. rewrite <- truthy_str_false.
  destruct (truthy_str (AddEventForm.maxAttendees f)); cbn.
  - destruct (parseInt (AddEventForm.maxAttendees f)) as [| z]; cbn.
    + split; [intros []; discriminate | intros (_ & z & Hz & _); discriminate].
    + destruct (Z.leb_spec z 0) as [Hz0 | Hz0].
      * split; [intros _; split; [discriminate | eauto] | eauto].
      * split; [intros []; discriminate|].
        intros (_ & z' & Hz & Hle). injection Hz as <-. lia.
  - split; [intros []; discriminate | intros [H _]; now destruct H].
Qed.

Lemma dateError_spec :
  is_Some (dateError parseISO now now' f) ↔ dateRejected parseISO now now' f.
Proof.
  unfold dateError, dateRejected. rewrite <- truthy_str_false.
  destruct (truthy_str (AddEventForm.date f)); cbn; [| split; eauto].
  destruct (parseISO (AddEventForm.date f)) as [| t]; cbn;
    [split; eauto|].
  unfold isBefore, date_ltb.
  destruct (Z.ltb_spec t now) as [Hnow | Hnow]; cbn.
  - destruct (TimeClip (now' - 60000)) as [| o].
    + split; [intros []; discriminate|].
      intros [H | [H | (t' & o & _ & _ & H & _)]]; discriminate.
    + destruct (Z.ltb_spec t o) as [Hto | Hto].
      * split; [intros _ | eauto]. right. right. exists t, o. auto.
      * split; [intros []; discriminate|].
        intros [H | [H | (t' & o' & Ht & _ & Ho & Hlt)]]; try discriminate.
        injection Ht as <-. injection Ho as <-. lia.
  - split; [intros []; discriminate|].
    intros [H | [H | (t' & o' & Ht & Hlt & _)]]; try discriminate.
    injection Ht as <-. lia.
Qed.

Lemma handleSubmit_eq {S : Type} (onAddEvent : NewEventData.t → S → S)
    (parent : S) :
  handleSubmit parseISO onAddEvent now now' f parent =
  (AddEventForm.with_errors f (validateForm parseISO now now' f).2,
   if (validateForm parseISO now now' f).1
   then onAddEvent (submittedData f) parent else parent).
Proof.
  unfold handleSubmit.
  destruct (validateForm parseISO now now' f) as [[|] errs]; reflexivity.
Qed.
End FormFacts.

(** The checks as the code has them.  The error map of [validateForm] has
    an entry for a field exactly when the check of that field fails (for
    the maximum: when it parses to an integer [<= 0]), and only for the
    four fields; the
    form is invalid exactly when the map has an entry.  [handleSubmit]
    stores the map, and calls [onAddEvent] exactly when the form is valid:
    on a failure the parent state, and with it the event list, is the one
    before. *)
Theorem validateForm_failure_is_field_tagged (parseISO : string → Date)
    (now now' : Z) (f : AddEventForm.state) :
  let r := validateForm parseISO now now' f in
  (is_Some (r.2 !! "title") ↔ trim (AddEventForm.title f) = EmptyString) ∧
  (is_Some (r.2 !! "date") ↔ dateRejected parseISO now now' f) ∧
  (is_Some (r.2 !! "location")
     ↔ trim (AddEventForm.location f) = EmptyString) ∧
  (is_Some (r.2 !! "maxAttendees") ↔ maxRejected f) ∧
  (∀ field, is_Some (r.2 !! field) →
     field ∈ ["title"; "date"; "location"; "maxAttendees"]) ∧
  (r.1 = false ↔ ∃ field, is_Some (r.2 !! field)) ∧
  (∀ (S : Type) (onAddEvent : NewEventData.t → S → S) (parent : S),
     handleSubmit parseISO onAddEvent now now' f parent =
     (AddEventForm.with_errors f r.2,
      if r.1 then onAddEvent (submittedData f) parent else parent)) ∧
  (r.1 = false →
   ∀ (toISOString : Date → string) (mockUser : Attendee.t) (nowId : Z)
     (st : AppState),
     (handleSubmit parseISO (handleAddEvent parseISO toISOString mockUser nowId)
                   now now' f st).2 = st).
Proof.
  intros r. unfold r. rewrite validateForm_eq. cbn [fst snd].
  destruct (errorsOf_lookup (titleError f) (dateError parseISO now now' f)
              (locationError f) (maxAttendeesError f)) as (H1 & H2 & H3 & H4).
  split_and!.
  - rewrite H1. apply titleError_spec.
  - rewrite H2. apply dateError_spec.
  - rewrite H3. apply locationError_spec.
  - rewrite H4. apply maxAttendeesError_spec.
  - apply errorsOf_fields.
  - unfold allAccepted. rewrite bool_decide_eq_false. split.
    + intros Hn.
      destruct (titleError f) eqn:E1;
        [exists "title"; rewrite H1; eauto|].
      destruct (dateError parseISO now now' f) eqn:E2;
        [exists "date"; rewrite H2; eauto|].
      destruct (locationError f) eqn:E3;
        [exists "location"; rewrite H3; eauto|].
      destruct (maxAttendeesError f) eqn:E4;
        [exists "maxAttendees"; rewrite H4; eauto|].
      now destruct Hn.
    + intros [field Hs] (E1 & E2 & E3 & E4).
      rewrite E1, E2, E3, E4 in Hs. cbn in Hs.
      rewrite lookup_empty in Hs. by destruct Hs.
  - intros S onAddEvent parent. rewrite handleSubmit_eq, validateForm_eq.
    reflexivity.
  - intros Hr toISOString mockUser nowId st.
    rewrite handleSubmit_eq, validateForm_eq. cbn [fst snd]. now rewrite Hr.
Qed.



(** The two drafts of the specification, evaluated: five seconds before the
    clock reading is accepted, five minutes before is rejected. *)
Example validateForm_five_seconds_ago :
  validateForm sampleParseISO 1762128000000 1762128000000
    (sampleForm "2025-11-02T23:59:55" EmptyString) = (true, ∅).
Proof. reflexivity. Qed.

Example validateForm_five_minutes_ago :
  validateForm sampleParseISO 1762128000000 1762128000000
    (sampleForm "2025-11-02T23:55:00" EmptyString)
  = (false, {["date" := "Date/time cannot be in the past."]}).
Proof. reflexivity. Qed.

(** C4.  A maximum that has no leading integer is accepted: for the input
    [abc], [parseInt] is NaN, the form is valid with no error on the field,
    and [handleSubmit] passes NaN on as [maxAttendees]. *)
Theorem validateForm_accepts_unparsable_max :
  let f := sampleForm "2030-01-01T10:00" "abc" in
  let now := 1762128000000%Z in
  parseInt "abc" = NaN ∧
  validateForm sampleParseISO now now f = (true, ∅) ∧
  ∀ (S : Type) (onAddEvent : NewEventData.t → S → S) (parent : S),
    handleSubmit sampleParseISO onAddEvent now now f parent =
    (f, onAddEvent
          (NewEventData.mk "Sync" "2030-01-01T10:00" EmptyString "X"
                           (Some NaN))
          parent).
Proof. repeat split. Qed.

(** ** The maximum that does not parse *)

Lemma spec_maxAttendees_rule_accepted (parseISO : string → Date)
    (now now' : Z) (f : AddEventForm.state) :
  (validateForm parseISO now now' f).1 = true →
  (¬ spec_maxAttendees_rule f
   ↔ AddEventForm.maxAttendees f ≠ EmptyString
     ∧ parseInt (AddEventForm.maxAttendees f) = NaN).
Proof.
  rewrite validateForm_eq. cbn [fst]. intros Hok.
  apply bool_decide_eq_true in Hok as (_ & _ & _ & Hmax).
  unfold maxAttendeesError in Hmax. unfold spec_maxAttendees_rule. split.
  - intros Hrule.
    destruct (truthy_str (AddEventForm.maxAttendees f)) eqn:Htr.
    + assert (AddEventForm.maxAttendees f ≠ EmptyString) as Hne.
      { intros He. rewrite He in Htr. discriminate. }
      split; [exact Hne|].
      destruct (parseInt (AddEventForm.maxAttendees f)) as [| z];
        [reflexivity|].
      exfalso. apply Hrule. intros _. exists z. split; [reflexivity|].
      cbn in Hmax. destruct (Z.leb_spec z 0); [discriminate | lia].
    + apply truthy_str_false in Htr. exfalso. apply Hrule.
      intros Hne. contradiction.
  - intros [Hne Hnan] Hrule. destruct (Hrule Hne) as (z & Hz & _).
    congruence.
Qed.

Section NaNCapacity.
Variable parseISO : string → Date.
Variable toISOString : Date → string.
Variable mockUser : Attendee.t.

Lemma rsvp_maxAttendees eventId event :
  Event.maxAttendees (rsvp mockUser eventId event).1
  = Event.maxAttendees event.
Proof. now rewrite rsvp_keeps_fields. Qed.

Lemma applyAction_keeps_NaN_capacity st a :
  hasNaNCapacity (events st) →
  hasNaNCapacity (events (applyAction parseISO toISOString mockUser st a)).
Proof.
  intros (event & Hin & Hnan).
  destruct a as [eventId | f now now' nowId]; cbn [applyAction].
  - exists (rsvp mockUser eventId event).1. split.
    + rewrite handleRsvp_events.
      now apply (list_elem_of_fmap_2
                   (fun event => (rsvp mockUser eventId event).1)).
    + now rewrite rsvp_maxAttendees.
  - rewrite handleSubmit_eq.
    destruct (validateForm parseISO now now' f).1; [| now exists event].
    unfold handleAddEvent.
    destruct (negb (isValid (parseISO (NewEventData.date (submittedData f)))));
      cbn [events]; exists event; split; try assumption.
    apply elem_of_app. now left.
Qed.

Lemma run_keeps_NaN_capacity actions : ∀ st,
  hasNaNCapacity (events st) →
  hasNaNCapacity (events (run parseISO toISOString mockUser actions st)).
Proof.
  induction actions as [| a actions IH]; intros st Hnan; [exact Hnan|].
  cbn [run foldl]. apply IH, applyAction_keeps_NaN_capacity, Hnan.
Qed.

End NaNCapacity.

Lemma NaN_capacity_not_within (event : Event.t) :
  Event.maxAttendees event = Some NaN → ¬ within_capacity event.
Proof. intros Hnan Hcap. specialize (Hcap NaN Hnan). discriminate Hcap. Qed.

Lemma NaN_capacity_breaks_roster_inv (events : list Event.t) :
  hasNaNCapacity events → ¬ Forall roster_inv events.
Proof.
  intros (event & Hin & Hnan) Hall.
  apply (proj1 (Forall_forall _ _) Hall) in Hin as [_ Hcap].
  now apply (NaN_capacity_not_within event).
Qed.

(** C9.  A draft can fail a validation rule and still be submitted.  For
    the draft with the maximum [.5e1] the fifth rule of the specification
    fails, yet [validateForm] returns true with an empty error map, so no
    field is named, and [handleSubmit] invokes [onAddEvent], which creates
    the event.  A draft that [validateForm] accepts while that rule fails
    is always of this kind: a supplied maximum that parses to NaN. *)
Theorem handleSubmit_invoked_on_failed_rule :
  let f := unparsableMaxForm in
  let now := 1762128000000%Z in
  let data := NewEventData.mk "Sync" "2030-01-01T10:00" EmptyString "X"
                              (Some NaN) in
  ¬ spec_maxAttendees_rule f ∧
  validateForm sampleParseISO now now f = (true, ∅) ∧
  (∀ (S : Type) (onAddEvent : NewEventData.t → S → S) (parent : S),
     handleSubmit sampleParseISO onAddEvent now now f parent
     = (f, onAddEvent data parent)) ∧
  (∀ st : AppState,
     events (handleSubmit sampleParseISO
               (handleAddEvent sampleParseISO sampleToISOString user1 now)
               now now f st).2
     = events st ++ [createdEvent sampleParseISO sampleToISOString user1 now
                                  data]) ∧
  (∀ (parseISO : string → Date) (t t' : Z) (g : AddEventForm.state),
     (validateForm parseISO t t' g).1 = true →
     (¬ spec_maxAttendees_rule g
      ↔ AddEventForm.maxAttendees g ≠ EmptyString
        ∧ parseInt (AddEventForm.maxAttendees g) = NaN)).
Proof.
  intros f now data. split_and!.
  - intros Hrule. destruct (Hrule ltac:(discriminate)) as (z & Hz & _).
    discriminate Hz.
  - reflexivity.
  - reflexivity.
  - reflexivity.
  - apply spec_maxAttendees_rule_accepted.
Qed.

(** C6.  A creation with a maximum that does not parse breaks the capacity
    invariant.  From the initial events, which satisfy the invariants,
    the draft with the maximum [.5e1] is accepted and creates an event
    whose [maxAttendees] is NaN; after the creator leaves and joins again
    its one attendee is still not [<=] its [maxAttendees], and whatever
    RSVP clicks and submissions follow, the list never satisfies the
    invariants again. *)
Theorem unparsable_max_breaks_capacity_invariant :
  let now := 1762128000000%Z in
  let go := run sampleParseISO sampleToISOString user1 in
  let st0 := initialState sampleToISOString now in
  let st1 := go [SubmitForm unparsableMaxForm now now now] st0 in
  let st3 := go [ClickRsvp "evt1762128000000"; ClickRsvp "evt1762128000000"]
                st1 in
  Forall roster_inv (events st0) ∧
  Forall capacity_nonzero (events st0) ∧
  (∃ newEvent,
     events st1 = events st0 ++ [newEvent] ∧
     Event.id newEvent = "evt1762128000000" ∧
     Event.attendees newEvent = [user1] ∧
     Event.maxAttendees newEvent = Some NaN ∧
     events st3 = events st1 ∧
     num_leb (attendeeCount newEvent) NaN = false ∧
     ¬ within_capacity newEvent) ∧
  (∀ actions, ¬ Forall roster_inv (events (go actions st1))).
Proof.
  intros now go st0 st1 st3.
  set (newEvent := createdEvent sampleParseISO sampleToISOString user1 now
                    (NewEventData.mk "Sync" "2030-01-01T10:00" EmptyString
                                     "X" (Some NaN))).
  assert (Hst1 : events st1 = events st0 ++ [newEvent]) by reflexivity.
  assert (Hnan : hasNaNCapacity (events st1)).
  { exists newEvent. split; [| reflexivity]. rewrite Hst1.
    apply elem_of_app. right. now apply list_elem_of_singleton. }
  split_and!.
  - unfold st0, initialState, initialEvents. cbn [events].
    repeat (apply List.Forall_cons; [split |]); try apply List.Forall_nil;
      try (unfold no_duplicate_ids; cbn [fmap list_fmap Event.attendees
                                         Attendee.id user1];
           apply (bool_decide_unpack _); vm_compute; exact I);
      intros m Hm; cbn in Hm; try discriminate Hm; injection Hm as <-;
      reflexivity.
  - unfold st0, initialState, initialEvents. cbn [events].
    repeat (apply List.Forall_cons; [discriminate |]). apply List.Forall_nil.
  - exists newEvent. split_and!; try reflexivity.
    now apply NaN_capacity_not_within.
  - intros actions. apply NaN_capacity_breaks_roster_inv.
    now apply run_keeps_NaN_capacity.
Qed.

(** * Further properties *)

(** ** More on handleRsvp *)

Section RsvpMore.
Variable mockUser : Attendee.t.

Lemma filter_existsb_shorter {A : Type} (p : A → bool) (l : list A) :
  existsb p l = true →
  (length (List.filter (fun a => negb (p a)) l) < length l)%nat.
Proof.
  induction l as [| x l IH]; cbn; [discriminate|].
  pose proof (filter_length_le (fun a => negb (p a)) l) as Hle.
  destruct (p x); cbn; [lia|]. intros H. apply IH in H. lia.
Qed.

Lemma filter_idem {A : Type} (p : A → bool) (l : list A) :
  List.filter p (List.filter p l) = List.filter p l.
Proof.
  induction l as [| x l IH]; cbn; [reflexivity|].
  destruct (p x) eqn:Hx; cbn; rewrite ?Hx; now rewrite ?IH.
Qed.

Lemma filter_no_match {A : Type} (p : A → bool) (l : list A) :
  existsb p l = false → List.filter (fun a => negb (p a)) l = l.
Proof.
  induction l as [| x l IH]; cbn; [reflexivity|].
  destruct (p x); cbn; [discriminate|]. intros H. now rewrite IH.
Qed.

Lemma rsvp_snd eventId event :
  (rsvp mockUser eventId event).2 =
  if String.eqb (Event.id event) eventId then
    if existsb (isMockUser mockUser) (Event.attendees event) then
      [mkToast ("Your RSVP for " +:+ dquote +:+ Event.title event
                +:+ dquote +:+ " has been canceled.") success]
    else if isFull event then
      [mkToast ("Sorry, " +:+ dquote +:+ Event.title event +:+ dquote
                +:+ " is full.") error]
    else
      [mkToast ("You've successfully RSVP'd to " +:+ dquote
                +:+ Event.title event +:+ dquote +:+ "!") success]
  else [].
Proof.
  unfold rsvp. destruct (String.eqb (Event.id event) eventId); [|reflexivity].
  destruct (existsb _ (Event.attendees event)); [reflexivity|].
  destruct (isFull event); reflexivity.
Qed.

Lemma canRsvp_eq event :
  EventCard.canRsvp mockUser event =
  negb (existsb (isMockUser mockUser) (Event.attendees event)) && isFull event.
Proof. reflexivity. Qed.

Lemma rsvp_date eventId event :
  Event.date (rsvp mockUser eventId event).1 = Event.date event.
Proof. rewrite rsvp_keeps_fields. reflexivity. Qed.

Lemma rsvp_id eventId event :
  Event.id (rsvp mockUser eventId event).1 = Event.id event.
Proof. rewrite rsvp_keeps_fields. reflexivity. Qed.

End RsvpMore.

(** X1.  The RSVP button of a card is disabled exactly when a click on it
    would leave the event as it is: [canRsvp] holds iff the callback of
    [handleRsvp] returns the event unchanged, and then the toast shown is
    the error toast of a full event. *)
Theorem canRsvp_iff_rsvp_rejected (currentUser : Attendee.t) (event : Event.t) :
  (EventCard.canRsvp currentUser event = true
   ↔ (rsvp currentUser (Event.id event) event).1 = event) ∧
  (EventCard.canRsvp currentUser event = true →
   (rsvp currentUser (Event.id event) event).2 =
   [mkToast ("Sorry, " +:+ dquote +:+ Event.title event +:+ dquote
             +:+ " is full.") error]).
Proof.
  rewrite canRsvp_eq, rsvp_fst, rsvp_snd, String.eqb_refl.
  destruct (existsb (isMockUser currentUser) (Event.attendees event)) eqn:Hatt;
    cbn [negb andb].
  - split; [| discriminate]. split; [discriminate|].
    intros H. apply (f_equal Event.attendees) in H. cbn in H.
    apply (f_equal length) in H.
    pose proof (filter_existsb_shorter _ _ Hatt). lia.
  - destruct (isFull event); split; try reflexivity; try discriminate.
    + split; reflexivity.
    + split; [discriminate|].
      intros H. apply (f_equal Event.attendees) in H. cbn in H.
      now apply app_one_neq in H.
Qed.

(** X2.  [handleRsvp] never adds or removes another attendee: at every
    position the attendees other than the acting one are the same, in the
    same order, before and after. *)
Theorem handleRsvp_keeps_other_attendees (me : Attendee.t) (eventId : string)
    (st : AppState) :
  Forall2
    (fun event event' =>
       List.filter (fun a => negb (isMockUser me a)) (Event.attendees event')
       = List.filter (fun a => negb (isMockUser me a)) (Event.attendees event))
    (events st) (events (handleRsvp me eventId st)).
Proof.
  rewrite handleRsvp_events. apply Forall2_fmap_r, Forall_Forall2_diag.
  apply Forall_forall. intros event _. unfold compose. cbn beta. rewrite rsvp_fst.
  destruct (String.eqb (Event.id event) eventId); [| reflexivity].
  destruct (existsb (isMockUser me) (Event.attendees event)) eqn:Hatt.
  - cbn. apply filter_idem.
  - destruct (isFull event); [reflexivity|]. cbn.
    rewrite List.filter_app. cbn.
    assert (Hme : isMockUser me me = true) by (apply String.eqb_refl).
    rewrite Hme. cbn. apply app_nil_r.
Qed.

(** X3.  [handleRsvp] shows one toast for each event with the target id, in
    the order of the list: the error toast when the card of that event has
    its button disabled, a success toast otherwise. *)
Theorem handleRsvp_one_toast_per_target (me : Attendee.t) (eventId : string)
    (st : AppState) :
  ∃ shown,
    toasts (handleRsvp me eventId st) = toasts st ++ shown ∧
    Forall2
      (fun event toast =>
         type toast = if EventCard.canRsvp me event then error else success)
      (List.filter (fun event => String.eqb (Event.id event) eventId)
                   (events st))
      shown.
Proof.
  rewrite handleRsvp_toasts. eexists. split; [reflexivity|].
  induction (events st) as [| event l IH];
    cbn [fmap list_fmap concat List.filter]; [constructor|].
  rewrite rsvp_snd.
  destruct (String.eqb (Event.id event) eventId); [| exact IH].
  destruct (existsb (isMockUser me) (Event.attendees event)) eqn:Hatt;
    [| destruct (isFull event) eqn:Hfull];
    cbn [app];
    (constructor;
     [rewrite canRsvp_eq, Hatt, ?Hfull; reflexivity | exact IH]).
Qed.

(** X4.  Joining and then leaving is a round trip: when the acting attendee
    is on no roster of the target events and none of them is full, two
    calls of [handleRsvp] return the event list as it was. *)
Theorem handleRsvp_join_then_leave_restores (me : Attendee.t)
    (eventId : string) (st : AppState) :
  Forall (fun event => Event.id event = eventId →
                       EventCard.isAttending me event = false
                       ∧ EventCard.isFull event = false)
         (events st) →
  events (handleRsvp me eventId (handleRsvp me eventId st)) = events st.
Proof.
  intros Hall. rewrite !handleRsvp_events, <- list_fmap_compose.
  rewrite <- (list_fmap_id (events st)) at 2.
  apply Forall_fmap_ext_1. eapply Forall_impl; [exact Hall|].
  intros event Hev. cbn. rewrite !rsvp_fst.
  destruct (String.eqb_spec (Event.id event) eventId) as [Hid | Hne].
  - destruct (Hev Hid) as [Hatt Hfull].
    change (existsb (isMockUser me) (Event.attendees event) = false) in Hatt.
    change (isFull event = false) in Hfull.
    rewrite Hatt, Hfull. cbn [Event.id Event.with_attendees Event.attendees].
    destruct (String.eqb_spec (Event.id event) eventId); [| contradiction].
    rewrite existsb_app. cbn.
    assert (Hme : isMockUser me me = true) by (apply String.eqb_refl).
    rewrite Hme, orb_true_r. cbn.
    rewrite List.filter_app. cbn. rewrite Hme. cbn.
    rewrite app_nil_r, filter_no_match by assumption.
    now destruct event.
  - destruct (String.eqb_spec (Event.id event) eventId); [contradiction|].
    reflexivity.
Qed.

Lemma handleRsvp_join_then_leave_restores_witness :
  let roomy := Event.mk "evt2" "Hike" "2030-01-02T09:00" EmptyString "Trail"
                        [user2] None user2 in
  let st := mkApp [oneSlotEvent; roomy] None false [] in
  events (handleRsvp user1 "evt2" (handleRsvp user1 "evt2" st)) = events st.
Proof.
  apply (handleRsvp_join_then_leave_restores user1 "evt2"
           (mkApp [oneSlotEvent;
                   Event.mk "evt2" "Hike" "2030-01-02T09:00" EmptyString "Trail"
                            [user2] None user2] None false [])).
  repeat constructor; cbn; discriminate.
Defined.

(** ** The views after a change of the roster *)

Section MapFacts.
Context {A : Type} (f : A → A).

Lemma filter_fmap_same (p : A → bool) (l : list A) :
  (∀ x, p (f x) = p x) →
  List.filter p (f <$> l) = f <$> List.filter p l.
Proof.
  intros Hp. induction l as [| x l IH]; [reflexivity|].
  cbn. rewrite Hp. destruct (p x); cbn; now rewrite IH.
Qed.

Lemma sort_fmap_same (cmp : A → A → num) (l : list A) :
  (∀ x y, cmp (f x) (f y) = cmp x y) →
  sort cmp (f <$> l) = f <$> sort cmp l.
Proof.
  intros Hc.
  assert (Hins : ∀ x l', sort_insert cmp (f x) (f <$> l')
                         = f <$> sort_insert cmp x l').
  { intros x l'. induction l' as [| y l' IH]; [reflexivity|].
    cbn. unfold cmp_gt. rewrite Hc.
    destruct (cmp x y) as [| v]; [reflexivity|].
    destruct (0 <? v)%Z; cbn; [now rewrite <- IH | reflexivity]. }
  induction l as [| x l IH]; [reflexivity|].
  cbn. now rewrite IH, Hins.
Qed.
End MapFacts.

(** X5.  An RSVP does not reorder or drop an event of the day list: the
    events listed for a day after [handleRsvp] are the events listed before,
    each as [handleRsvp] returns it. *)
Theorem eventsOnSelectedDate_after_handleRsvp (parseISO : string → Date)
    (me : Attendee.t) (eventId : string) (st : AppState)
    (selected : option Date) :
  eventsOnSelectedDate parseISO selected
    (events (handleRsvp me eventId st))
  = (fun event => (rsvp me eventId event).1)
      <$> eventsOnSelectedDate parseISO selected (events st).
Proof.
  rewrite handleRsvp_events. destruct selected as [day |]; [| reflexivity].
  cbn [eventsOnSelectedDate].
  rewrite filter_fmap_same
    by (intros event; unfold onSelectedDate; now rewrite rsvp_date).
  apply sort_fmap_same. intros x y. unfold compareByTime.
  now rewrite !rsvp_date.
Qed.

(** X6.  An RSVP does not move an event to another day: after [handleRsvp]
    the index has the same keys, and the group of a key is the group
    before, each event as [handleRsvp] returns it. *)
Theorem eventsByDate_after_handleRsvp (parseISO : string → Date)
    (format : Date → string → string) (me : Attendee.t) (eventId : string)
    (st : AppState) (key : string) :
  eventsByDate parseISO format (events (handleRsvp me eventId st)) !! key
  = fmap (fun event => (rsvp me eventId event).1)
      <$> (eventsByDate parseISO format (events st) !! key).
Proof.
  rewrite handleRsvp_events. unfold eventsByDate.
  rewrite !eventsByDate_fold, lookup_empty. unfold eventsWithKey.
  rewrite filter_fmap_same by (intros event; now rewrite rsvp_date).
  destruct (List.filter _ (events st)); reflexivity.
Qed.

(** X7.  The cell of a day and the list of that day show the same events:
    when, for the events of the list, having the day key of [day] is the
    same as being on the same day, the events listed for [day] are the
    group of its key in the index, sorted by instant. *)
Theorem eventsOnSelectedDate_is_sorted_group (parseISO : string → Date)
    (format : Date → string → string) (day : Date) (events : list Event.t) :
  Forall (fun event =>
            isValid (parseISO (Event.date event)) = true →
            (format (parseISO (Event.date event)) "yyyy-MM-dd"
               = format day "yyyy-MM-dd"
             ↔ isSameDay (parseISO (Event.date event)) day = true))
         events →
  eventsOnSelectedDate parseISO (Some day) events =
  sort (compareByTime parseISO)
       (default [] (eventsByDate parseISO format events
                      !! format day "yyyy-MM-dd")).
Proof.
  intros Hkey. cbn [eventsOnSelectedDate]. f_equal.
  unfold eventsByDate. rewrite eventsByDate_fold, lookup_empty.
  assert (Heq : List.filter (onSelectedDate parseISO day) events
                = eventsWithKey parseISO format (format day "yyyy-MM-dd")
                                events).
  { unfold eventsWithKey. induction Hkey as [| event l Hev Hl IH];
      [reflexivity|].
    cbn [List.filter]. rewrite IH. unfold onSelectedDate.
    destruct (isValid (parseISO (Event.date event))); [| reflexivity].
    cbn [andb]. specialize (Hev eq_refl).
    destruct (String.eqb_spec
                (format (parseISO (Event.date event)) "yyyy-MM-dd")
                (format day "yyyy-MM-dd")) as [Hk | Hk].
    - now rewrite (proj1 Hev Hk).
    - destruct (isSameDay (parseISO (Event.date event)) day);
        [| reflexivity].
      exfalso. apply Hk, Hev. reflexivity. }
  rewrite Heq.
  destruct (eventsWithKey parseISO format (format day "yyyy-MM-dd") events);
    reflexivity.
Qed.

Lemma eventsOnSelectedDate_is_sorted_group_witness :
  let events :=
    [sampleEvent "a" "2025-11-03T00:05:00"; sampleEvent "b" "2030-01-01T10:00";
     sampleEvent "c" "not-a-date"; sampleEvent "d" "2025-11-03T00:00:05"] in
  let day := Time 1762128000000 in
  eventsOnSelectedDate sampleParseISO (Some day) events =
  sort (compareByTime sampleParseISO)
       (default [] (eventsByDate sampleParseISO sampleFormat events
                      !! sampleFormat day "yyyy-MM-dd")).
Proof.
  apply (eventsOnSelectedDate_is_sorted_group sampleParseISO sampleFormat
           (Time 1762128000000)).
  repeat constructor; cbn; intros; solve [reflexivity | discriminate].
Defined.

(** ** generateAvatarColor *)

Lemma toInt32_range z : (-2147483648 ≤ toInt32 z < 2147483648)%Z.
Proof.
  unfold toInt32. pose proof (Z.mod_pos_bound z 4294967296 ltac:(lia)).
  destruct (Z.ltb_spec (z mod 4294967296) 2147483648); lia.
Qed.

Lemma avatarHash_range s : ∀ hash,
  (-2147483648 ≤ hash < 2147483648)%Z →
  (-2147483648 ≤ avatarHash s hash < 2147483648)%Z.
Proof.
  induction s as [| c s IH]; intros hash Hh; cbn [avatarHash]; [exact Hh|].
  apply IH, toInt32_range.
Qed.

(** X8.  [generateAvatarColor] returns an entry of the palette for every id:
    the hash is a 32-bit integer and the index computed from it is within
    the bounds of [colors]. *)
Theorem generateAvatarColor_in_palette (id : string) :
  (-2147483648 ≤ avatarHash id 0 < 2147483648)%Z ∧
  ∃ color, generateAvatarColor id = Some color ∧ color ∈ colors.
Proof.
  split; [apply avatarHash_range; lia|].
  unfold generateAvatarColor.
  assert (Hlt : (Z.to_nat (Z.abs (Z.rem (avatarHash id 0)
                                        (Z.of_nat (length colors))))
                 < length colors)%nat).
  { change (Z.of_nat (length colors)) with 17%Z.
    change (length colors) with 17%nat.
    pose proof (Z.rem_bound_abs (avatarHash id 0) 17 ltac:(lia)). lia. }
  apply lookup_lt_is_Some in Hlt as [color Hc]. exists color.
  split; [exact Hc|]. eapply list_elem_of_lookup_2, Hc.
Qed.

(** ** Creation through the form *)

Lemma trimEnd_empty s : trimEnd s = EmptyString ↔ allWhitespace s = true.
Proof.
  induction s as [| c s IH]; [easy|]. cbn [trimEnd allWhitespace].
  destruct (trimEnd s) as [| c' r].
  - destruct (is_whitespace c); cbn.
    + split; [intros _; now apply IH | reflexivity].
    + split; discriminate.
  - split; [discriminate|]. intros H. apply andb_true_iff in H as [_ H].
    apply IH in H. discriminate.
Qed.

Lemma trimStart_allWhitespace s :
  allWhitespace (trimStart s) = allWhitespace s.
Proof.
  induction s as [| c s IH]; [reflexivity|]. cbn [trimStart].
  destruct (is_whitespace c) eqn:Hc; [| reflexivity].
  cbn [allWhitespace]. now rewrite Hc.
Qed.

Lemma trim_empty s : trim s = EmptyString ↔ allWhitespace s = true.
Proof. unfold trim. now rewrite trimEnd_empty, trimStart_allWhitespace. Qed.

(** X9.  A blank title or location is always rejected: when the title (the
    location) is empty or consists only of the white-space code units TAB,
    LF, VT, FF, CR, SP and NBSP, [validateForm] returns false with the
    error of that field, whatever the other fields hold, and [handleSubmit]
    does not call [onAddEvent]: the parent state is the one before. *)
Theorem validateForm_blank_title_location (parseISO : string → Date)
    (now now' : Z) (f : AddEventForm.state) :
  let r := validateForm parseISO now now' f in
  (allWhitespace (AddEventForm.title f) = true →
   r.1 = false ∧ r.2 !! "title" = Some "Title is required.") ∧
  (allWhitespace (AddEventForm.location f) = true →
   r.1 = false ∧ r.2 !! "location" = Some "Location is required.") ∧
  (allWhitespace (AddEventForm.title f) = true
   ∨ allWhitespace (AddEventForm.location f) = true →
   ∀ (S : Type) (onAddEvent : NewEventData.t → S → S) (parent : S),
     (handleSubmit parseISO onAddEvent now now' f parent).2 = parent).
Proof.
  intros r.
  assert (Ht : allWhitespace (AddEventForm.title f) = true →
               r.1 = false ∧ r.2 !! "title" = Some "Title is required.").
  { intros Hb. apply trim_empty in Hb. unfold r. rewrite validateForm_eq.
    cbn [fst snd].
    destruct (errorsOf_lookup (titleError f) (dateError parseISO now now' f)
                (locationError f) (maxAttendeesError f)) as (-> & _).
    assert (titleError f = Some "Title is required.") as He
      by (unfold titleError; now rewrite Hb).
    split; [| exact He]. unfold allAccepted. apply bool_decide_eq_false.
    intros (Hn & _). congruence. }
  assert (Hl : allWhitespace (AddEventForm.location f) = true →
               r.1 = false
               ∧ r.2 !! "location" = Some "Location is required.").
  { intros Hb. apply trim_empty in Hb. unfold r. rewrite validateForm_eq.
    cbn [fst snd].
    destruct (errorsOf_lookup (titleError f) (dateError parseISO now now' f)
                (locationError f) (maxAttendeesError f)) as (_ & _ & -> & _).
    assert (locationError f = Some "Location is required.") as He
      by (unfold locationError; now rewrite Hb).
    split; [| exact He]. unfold allAccepted. apply bool_decide_eq_false.
    intros (_ & _ & Hn & _). congruence. }
  split_and!; [exact Ht | exact Hl |].
  intros Hb S onAddEvent parent. rewrite handleSubmit_eq. cbn [snd].
  fold r. destruct Hb as [Hb | Hb]; [apply Ht in Hb | apply Hl in Hb];
    destruct Hb as [-> _]; reflexivity.
Qed.

(** X10.  What [handleSubmit] passes to [onAddEvent] when it calls it: the
    trimmed title and the trimmed location, neither of them empty; the
    trimmed description; the date input as it is, not empty, which parses
    to an instant that is not before the clock reading or not before one
    minute before the second reading; and a maximum that is absent exactly
    when the input is empty, and otherwise is never a number [<= 0]. *)
Theorem handleSubmit_passes_normalized_data (parseISO : string → Date)
    (now now' : Z) (f : AddEventForm.state) (data : NewEventData.t) :
  (handleSubmit parseISO recordCall now now' f None).2 = Some data →
  (NewEventData.title data = trim (AddEventForm.title f)
   ∧ NewEventData.title data ≠ EmptyString) ∧
  (NewEventData.location data = trim (AddEventForm.location f)
   ∧ NewEventData.location data ≠ EmptyString) ∧
  NewEventData.description data = trim (AddEventForm.description f) ∧
  (NewEventData.date data = AddEventForm.date f
   ∧ NewEventData.date data ≠ EmptyString) ∧
  (∃ t, parseISO (NewEventData.date data) = Time t
        ∧ ((now ≤ t)%Z
           ∨ ∀ o, TimeClip (now' - 60000) = Time o → (o ≤ t)%Z)) ∧
  (NewEventData.maxAttendees data = None
   ↔ AddEventForm.maxAttendees f = EmptyString) ∧
  (∀ m, NewEventData.maxAttendees data = Some m →
        num_leb m (Num 0) = false).
Proof.
  rewrite handleSubmit_eq, validateForm_eq. cbn [fst snd].
  destruct (allAccepted parseISO now now' f) eqn:Hok; [| discriminate].
  unfold recordCall. intros Hd. injection Hd as <-.
  apply bool_decide_eq_true in Hok as (Ht & Hdate & Hl & Hm).
  cbn [NewEventData.title NewEventData.location NewEventData.description
       NewEventData.date NewEventData.maxAttendees submittedData].
  unfold titleError in Ht. unfold locationError in Hl.
  unfold dateError in Hdate. unfold maxAttendeesError in Hm.
  split_and!; try reflexivity.
  - intros He. rewrite He in Ht. discriminate.
  - intros He. rewrite He in Hl. discriminate.
  - intros He. rewrite He in Hdate. discriminate.
  - destruct (truthy_str (AddEventForm.date f)); [| discriminate].
    destruct (parseISO (AddEventForm.date f)) as [| t]; [discriminate|].
    exists t. split; [reflexivity|]. cbn [negb isValid] in Hdate.
    unfold isBefore, date_ltb in Hdate.
    destruct (Z.ltb_spec t now) as [Hlt | Hge]; [| now left].
    right. intros o Ho. rewrite Ho in Hdate. cbn [andb] in Hdate.
    destruct (Z.ltb_spec t o); [discriminate | lia].
  - rewrite <- truthy_str_false.
    destruct (truthy_str (AddEventForm.maxAttendees f)); split; congruence.
  - intros m Hmax.
    destruct (truthy_str (AddEventForm.maxAttendees f)); [| discriminate].
    injection Hmax as <-. cbn [andb] in Hm.
    destruct (num_leb (parseInt (AddEventForm.maxAttendees f)) (Num 0));
      [discriminate | reflexivity].
Qed.

Lemma handleSubmit_passes_normalized_data_witness :
  let f := AddEventForm.mk "  Sync " "2030-01-01T10:00" " weekly" "Room 3 "
                           "7 people" ∅ in
  let data := NewEventData.mk "Sync" "2030-01-01T10:00" "weekly" "Room 3"
                              (Some (Num 7)) in
  (NewEventData.title data = trim (AddEventForm.title f)
   ∧ NewEventData.title data ≠ EmptyString) ∧
  (NewEventData.location data = trim (AddEventForm.location f)
   ∧ NewEventData.location data ≠ EmptyString) ∧
  NewEventData.description data = trim (AddEventForm.description f) ∧
  (NewEventData.date data = AddEventForm.date f
   ∧ NewEventData.date data ≠ EmptyString) ∧
  (∃ t, sampleParseISO (NewEventData.date data) = Time t
        ∧ ((1762128000000 ≤ t)%Z
           ∨ ∀ o, TimeClip (1762128000000 - 60000) = Time o → (o ≤ t)%Z)) ∧
  (NewEventData.maxAttendees data = None
   ↔ AddEventForm.maxAttendees f = EmptyString) ∧
  (∀ m, NewEventData.maxAttendees data = Some m →
        num_leb m (Num 0) = false).
Proof.
  apply (handleSubmit_passes_normalized_data sampleParseISO
           1762128000000 1762128000000
           (AddEventForm.mk "  Sync " "2030-01-01T10:00" " weekly" "Room 3 "
                            "7 people" ∅)).
  reflexivity.
Defined.

(** ** handleAddEvent *)

Section CreateFacts.
Variable parseISO : string → Date.
Variable format : Date → string → string.
Variable toISOString : Date → string.
Variable mockUser : Attendee.t.

Lemma handleAddEvent_valid now newEventData st :
  isValid (parseISO (NewEventData.date newEventData)) = true →
  handleAddEvent parseISO toISOString mockUser now newEventData st =
  mkApp (events st ++ [createdEvent parseISO toISOString mockUser now
                                        newEventData])
        (Some (parseISO (NewEventData.date newEventData))) false
        (toasts st ++
         [mkToast ("Event " +:+ dquote +:+ NewEventData.title newEventData
                   +:+ dquote +:+ " created successfully!") success]).
Proof. intros Hv. unfold handleAddEvent. now rewrite Hv. Qed.

Lemma handleAddEvent_invalid now newEventData st :
  isValid (parseISO (NewEventData.date newEventData)) = false →
  handleAddEvent parseISO toISOString mockUser now newEventData st =
  mkApp (events st) (selectedDate st) (isAddEventModalOpen st)
        (toasts st ++ [mkToast "Invalid date format provided." error]).
Proof. intros Hv. unfold handleAddEvent. now rewrite Hv. Qed.

Lemma eventsByDate_snoc events event :
  eventsByDate parseISO format (events ++ [event]) =
  eventsByDate_step parseISO format (eventsByDate parseISO format events) event.
Proof. unfold eventsByDate. now rewrite foldl_app. Qed.

End CreateFacts.

(** X11.  A form that [validateForm] accepts always creates its event: the
    date check of [handleAddEvent] cannot fail after it, so [handleSubmit]
    with [handleAddEvent] appends exactly one event with the creator as its
    only attendee, selects its date, closes the modal and shows one success
    toast; the error toast of [handleAddEvent] is not shown. *)
Theorem handleSubmit_accepted_creates_event (parseISO : string → Date)
    (toISOString : Date → string) (mockUser : Attendee.t)
    (now now' nowId : Z) (f : AddEventForm.state) (st : AppState) :
  (validateForm parseISO now now' f).1 = true →
  let st' := (handleSubmit parseISO
                (handleAddEvent parseISO toISOString mockUser nowId)
                now now' f st).2 in
  ∃ newEvent,
    events st' = events st ++ [newEvent] ∧
    Event.attendees newEvent = [mockUser] ∧
    Event.createdBy newEvent = mockUser ∧
    Event.title newEvent = trim (AddEventForm.title f) ∧
    Event.location newEvent = trim (AddEventForm.location f) ∧
    Event.date newEvent = toISOString (parseISO (AddEventForm.date f)) ∧
    selectedDate st' = Some (parseISO (AddEventForm.date f)) ∧
    isAddEventModalOpen st' = false ∧
    ∃ msg, toasts st' = toasts st ++ [mkToast msg success].
Proof.
  intros Hok. rewrite handleSubmit_eq, Hok. cbn [snd].
  assert (Hv : isValid (parseISO (NewEventData.date (submittedData f))) = true).
  { rewrite validateForm_eq in Hok. cbn [fst] in Hok.
    apply bool_decide_eq_true in Hok as (_ & Hdate & _).
    unfold dateError in Hdate. cbn [submittedData NewEventData.date].
    destruct (truthy_str (AddEventForm.date f)); [| discriminate].
    destruct (isValid (parseISO (AddEventForm.date f))); [reflexivity|].
    discriminate. }
  rewrite handleAddEvent_valid by exact Hv.
  eexists. split; [reflexivity|]. cbn. split_and!; try reflexivity.
  eexists. reflexivity.
Qed.

Lemma handleSubmit_accepted_creates_event_witness :
  let st' := (handleSubmit sampleParseISO
                (handleAddEvent sampleParseISO sampleToISOString user1 1762128000123)
                1762128000000 1762128000000
                (sampleForm "2030-01-01T10:00" "8") oneSlotState).2 in
  ∃ newEvent,
    events st' = events oneSlotState ++ [newEvent] ∧
    Event.attendees newEvent = [user1] ∧
    Event.createdBy newEvent = user1 ∧
    Event.title newEvent = trim "Sync" ∧
    Event.location newEvent = trim "X" ∧
    Event.date newEvent = sampleToISOString (sampleParseISO "2030-01-01T10:00") ∧
    selectedDate st' = Some (sampleParseISO "2030-01-01T10:00") ∧
    isAddEventModalOpen st' = false ∧
    ∃ msg, toasts st' = toasts oneSlotState ++ [mkToast msg success].
Proof.
  apply (handleSubmit_accepted_creates_event sampleParseISO sampleToISOString
           user1 1762128000000 1762128000000 1762128000123
           (sampleForm "2030-01-01T10:00" "8") oneSlotState).
  reflexivity.
Defined.

(** X12.  When [handleAddEvent] cannot parse the date, the events, the
    selection and the modal are left as they are and one error toast is
    shown; when it can, exactly one event is appended.  So the event list
    changes exactly when the date parses. *)
Theorem handleAddEvent_changes_iff_date_parses (parseISO : string → Date)
    (toISOString : Date → string) (mockUser : Attendee.t) (now : Z)
    (newEventData : NewEventData.t) (st : AppState) :
  let st' := handleAddEvent parseISO toISOString mockUser now newEventData st in
  (isValid (parseISO (NewEventData.date newEventData)) = false ↔
   events st' = events st) ∧
  (isValid (parseISO (NewEventData.date newEventData)) = false →
   selectedDate st' = selectedDate st ∧
   isAddEventModalOpen st' = isAddEventModalOpen st ∧
   toasts st' = toasts st ++ [mkToast "Invalid date format provided." error]) ∧
  (isValid (parseISO (NewEventData.date newEventData)) = true →
   length (events st') = S (length (events st))).
Proof.
  intros st'. unfold st'.
  destruct (isValid (parseISO (NewEventData.date newEventData))) eqn:Hv.
  - rewrite handleAddEvent_valid by exact Hv. cbn. split_and!.
    + split; [discriminate|]. intros H. now apply app_one_neq in H.
    + discriminate.
    + intros _. rewrite length_app. cbn. lia.
  - rewrite handleAddEvent_invalid by exact Hv. cbn. split_and!.
    + split; reflexivity.
    + intros _. split_and!; reflexivity.
    + discriminate.
Qed.

(** X13.  The id of a created event is determined by the clock reading: two
    events created one after the other have the same id exactly when
    [Date.now()] gave the same value for both. *)
Theorem handleAddEvent_ids_from_clock (parseISO : string → Date)
    (toISOString : Date → string) (mockUser : Attendee.t) (now1 now2 : Z)
    (data1 data2 : NewEventData.t) (st : AppState) :
  isValid (parseISO (NewEventData.date data1)) = true →
  isValid (parseISO (NewEventData.date data2)) = true →
  ∃ event1 event2,
    events (handleAddEvent parseISO toISOString mockUser now2 data2
              (handleAddEvent parseISO toISOString mockUser now1 data1 st))
    = events st ++ [event1; event2] ∧
    (Event.id event1 = Event.id event2 ↔ now1 = now2).
Proof.
  intros Hv1 Hv2. rewrite !handleAddEvent_valid by assumption.
  cbn [events]. eexists _, _. split.
  { rewrite <- app_assoc. reflexivity. }
  cbn [Event.id createdEvent]. split.
  - intros H. apply (inj (String.app "evt")) in H.
    now apply (inj pretty) in H.
  - now intros ->.
Qed.

Lemma handleAddEvent_ids_from_clock_witness :
  ∃ event1 event2,
    events (handleAddEvent sampleParseISO sampleToISOString user1 1762128000124
              (NewEventData.mk "B" "2030-01-01T10:00" EmptyString "Y" None)
              (handleAddEvent sampleParseISO sampleToISOString user1
                 1762128000123
                 (NewEventData.mk "A" "2025-11-03T00:05:00" EmptyString "X" None)
                 oneSlotState))
    = events oneSlotState ++ [event1; event2] ∧
    (Event.id event1 = Event.id event2 ↔ 1762128000123%Z = 1762128000124%Z).
Proof.
  apply (handleAddEvent_ids_from_clock sampleParseISO sampleToISOString user1
           1762128000123 1762128000124
           (NewEventData.mk "A" "2025-11-03T00:05:00" EmptyString "X" None)
           (NewEventData.mk "B" "2030-01-01T10:00" EmptyString "Y" None)
           oneSlotState); reflexivity.
Defined.

(** X14.  A created event is shown at once: when [parseISO] reads back what
    [toISOString] wrote for the parsed date, after a successful
    [handleAddEvent] the new event is among the events listed for the
    selected date, and it is the last event of the group of its day key in
    the index, the other groups being as before. *)
Theorem handleAddEvent_event_is_shown (parseISO : string → Date)
    (format : Date → string → string) (toISOString : Date → string)
    (mockUser : Attendee.t) (now t : Z) (newEventData : NewEventData.t)
    (st : AppState) :
  parseISO (NewEventData.date newEventData) = Time t →
  (Z.abs t ≤ maxTime)%Z →
  parseISO (toISOString (Time t)) = Time t →
  let st' := handleAddEvent parseISO toISOString mockUser now newEventData st in
  ∃ newEvent,
    events st' = events st ++ [newEvent] ∧
    newEvent ∈ eventsOnSelectedDate parseISO (selectedDate st') (events st') ∧
    (∀ key,
       eventsByDate parseISO format (events st') !! key =
       if String.eqb (format (Time t) "yyyy-MM-dd") key
       then Some (default [] (eventsByDate parseISO format (events st) !! key)
                  ++ [newEvent])
       else eventsByDate parseISO format (events st) !! key).
Proof.
  intros Hp Ht Hround st'. unfold st'.
  rewrite handleAddEvent_valid by (now rewrite Hp).
  cbn [events selectedDate]. eexists. split; [reflexivity|].
  set (newEvent := createdEvent parseISO toISOString mockUser now newEventData).
  assert (Hdate : parseISO (Event.date newEvent) = Time t)
    by (cbn; now rewrite Hp).
  split.
  - rewrite Hp. cbn [eventsOnSelectedDate].
    rewrite (sort_perm (compareByTime parseISO)).
    apply list_elem_of_In, filter_In. split.
    + apply in_or_app. right. now left.
    + unfold onSelectedDate. rewrite Hdate. cbn [isValid andb].
      rewrite isSameDay_Day by assumption. apply Z.eqb_refl.
  - intros key. rewrite eventsByDate_snoc. unfold eventsByDate_step.
    rewrite Hdate. cbn [isValid].
    destruct (String.eqb_spec (format (Time t) "yyyy-MM-dd") key)
      as [-> | Hne].
    + now rewrite lookup_insert_eq.
    + now rewrite lookup_insert_ne.
Qed.

Lemma handleAddEvent_event_is_shown_witness :
  let data := NewEventData.mk "A" "2030-01-01T10:00" EmptyString "X" None in
  let st' := handleAddEvent sampleParseISOZ sampleToISOString user1
                            1762128000123 data oneSlotState in
  ∃ newEvent,
    events st' = events oneSlotState ++ [newEvent] ∧
    newEvent ∈ eventsOnSelectedDate sampleParseISOZ (selectedDate st')
                                    (events st') ∧
    (∀ key,
       eventsByDate sampleParseISOZ sampleFormat (events st') !! key =
       if String.eqb (sampleFormat (Time 1893492000000) "yyyy-MM-dd") key
       then Some (default []
                    (eventsByDate sampleParseISOZ sampleFormat
                                  (events oneSlotState) !! key)
                  ++ [newEvent])
       else eventsByDate sampleParseISOZ sampleFormat (events oneSlotState)
              !! key).
Proof.
  apply (handleAddEvent_event_is_shown sampleParseISOZ sampleFormat
           sampleToISOString user1 1762128000123 1893492000000
           (NewEventData.mk "A" "2030-01-01T10:00" EmptyString "X" None)
           oneSlotState).
  - reflexivity.
  - unfold maxTime. lia.
  - reflexivity.
Defined.

(** ** More on the month grid *)

Section GridMore.
Local Open Scope Z_scope.

Lemma gridStart_eq y m :
  gridStart y m = MakeDay y m 1 - (MakeDay y m 1 + 4) mod 7.
Proof. reflexivity. Qed.

Lemma gridEnd_eq y m :
  gridEnd y m = MakeDay y (m + 1) 0 + 6 - (MakeDay y (m + 1) 0 + 4) mod 7.
Proof. reflexivity. Qed.

Lemma daysInMonth_eq y m :
  daysInMonth y m = MakeDay y (m + 1) 0 - MakeDay y m 1 + 1.
Proof. reflexivity. Qed.

Lemma daysInMonth_range y m : 0 ≤ m ≤ 11 → 28 ≤ daysInMonth y m ≤ 31.
Proof.
  intros Hm. unfold daysInMonth.
  rewrite MakeDay_first, MakeDay_last by assumption.
  destruct (InLeapYearOf_cases y) as [-> | ->];
    unfold monthStart; case_ltb; lia.
Qed.

Lemma week_start_arith first :
  first - 7 < first - (first + 4) mod 7 ≤ first
  ∧ (first - (first + 4) mod 7 + 4) mod 7 = 0.
Proof. Z.to_euclidean_division_equations; lia. Qed.

Lemma week_end_arith last :
  last ≤ last + 6 - (last + 4) mod 7 < last + 7
  ∧ (last + 6 - (last + 4) mod 7 + 4) mod 7 = 6.
Proof.
  pose proof (Z.mod_pos_bound (last + 4) 7 ltac:(lia)) as Hr.
  pose proof (Z.div_mod (last + 4) 7 ltac:(lia)) as Hq.
  split; [lia|]. symmetry.
  apply (Z.mod_unique_pos _ 7 ((last + 4) / 7) 6); lia.
Qed.

Lemma weeks_arith s e first last :
  28 ≤ last - first + 1 ≤ 31 →
  first - 7 < s ≤ first → (s + 4) mod 7 = 0 →
  last ≤ e < last + 7 → (e + 4) mod 7 = 6 →
  e - s + 1 = 7 * Z.of_nat (Z.to_nat ((e - s + 1) / 7))
  ∧ Z.of_nat (Z.to_nat ((e - s + 1) / 7)) ≤ 6.
Proof.
  intros Hdim Hs1 Hs2 He1 He2.
  rewrite Z2Nat.id by (apply Z.div_pos; lia).
  Z.to_euclidean_division_equations; lia.
Qed.

Lemma calendarDays_rows_aux t fuel y m first last s e k :
  y = YearFromTime t → m = MonthFromTime t → valid_month y m →
  first = MakeDay y m 1 → last = MakeDay y (m + 1) 0 →
  s = first - (first + 4) mod 7 → e = last + 6 - (last + 4) mod 7 →
  e - s + 1 = 7 * Z.of_nat k →
  (k < fuel)%nat →
  calendarDays fuel (Time t) = Some (week_rows s k).
Proof.
  intros Hyt Hmt [Hy Hm] Hf Hl Hs He Hk Hfuel.
  pose proof (MakeDay_first y m Hm) as Hfirst. rewrite <- Hf in Hfirst.
  pose proof (MakeDay_last y m Hm) as Hlast. rewrite <- Hl in Hlast.
  pose proof (DayFromYear_valid y Hy) as [Hlo Hhi].
  pose proof (DayFromYear_succ y) as Hsucc.
  assert (Hlp : 0 ≤ InLeapYearOf y ≤ 1)
    by (destruct (InLeapYearOf_cases y); lia).
  pose proof (monthStart_mono m _ Hlp Hm) as [Hms1 Hms2].
  assert (Hleap : InLeapYearOf y = DaysInYear y - 365) by reflexivity.
  destruct (week_start_arith first) as [Hs1 _]. rewrite <- Hs in Hs1.
  destruct (week_end_arith last) as [He1 _]. rewrite <- He in He1.
  assert (Hfr : day_in_range first) by (unfold day_in_range; lia).
  assert (Hlr : day_in_range last) by (unfold day_in_range; lia).
  assert (Hsr : day_in_range s) by (unfold day_in_range; lia).
  assert (Her : day_in_range e) by (unfold day_in_range; lia).
  destruct (civil_of_MakeDay y m 1 Hm ltac:(lia)) as (Hy1 & Hm1 & _).
  rewrite <- Hf in Hy1, Hm1.
  unfold calendarDays.
  rewrite startOfMonth_time; rewrite <- Hyt, <- Hmt, <- Hf; [| exact Hfr].
  unfold midnight at 1 2.
  rewrite endOfMonth_time;
    unfold YearFromTime, MonthFromTime; rewrite Day_midnight, Hy1, Hm1, <- Hl;
    [| exact Hlr].
  rewrite startOfWeek_time; unfold WeekDay; rewrite Day_midnight, <- Hs;
    [| exact Hsr].
  destruct (Day_MakeDate last 86399999 ltac:(unfold msPerDay; lia))
    as [HDl _].
  rewrite endOfWeek_time; unfold WeekDay; rewrite HDl, <- He; [| exact Her].
  replace e with (s + 7 * Z.of_nat k - 1) by lia.
  rewrite calendarDays_loop_rows; [reflexivity | exact Hfuel |].
  intros j Hj. unfold day_in_range in *. lia.
Qed.

(** The grid as a function of the year and the month of the reference. *)
Lemma calendarDays_rows t fuel :
  valid_month (YearFromTime t) (MonthFromTime t) →
  (7 ≤ fuel)%nat →
  let y := YearFromTime t in
  let m := MonthFromTime t in
  calendarDays fuel (Time t) =
  Some (week_rows (gridStart y m)
                  (Z.to_nat ((gridEnd y m - gridStart y m + 1) / 7)))
  ∧ gridEnd y m - gridStart y m + 1
    = 7 * Z.of_nat (Z.to_nat ((gridEnd y m - gridStart y m + 1) / 7))
  ∧ MakeDay y m 1 - 7 < gridStart y m ≤ MakeDay y m 1
  ∧ MakeDay y (m + 1) 0 ≤ gridEnd y m < MakeDay y (m + 1) 0 + 7.
Proof.
  intros Hv Hfuel y m. rewrite !gridStart_eq, !gridEnd_eq.
  pose proof (daysInMonth_range y m (proj2 Hv)) as Hdim.
  rewrite daysInMonth_eq in Hdim.
  destruct (week_start_arith (MakeDay y m 1)) as [Hs1 Hs2].
  destruct (week_end_arith (MakeDay y (m + 1) 0)) as [He1 He2].
  destruct (weeks_arith _ _ _ _ Hdim Hs1 Hs2 He1 He2) as [Hk1 Hk2].
  split; [| split; [exact Hk1 | split; [exact Hs1 | exact He1]]].
  apply (calendarDays_rows_aux t fuel y m (MakeDay y m 1)
           (MakeDay y (m + 1) 0) _ _ _
           eq_refl eq_refl Hv eq_refl eq_refl eq_refl eq_refl Hk1).
  lia.
Qed.

Lemma week_rows_length a k : length (week_rows a k) = k.
Proof.
  revert a. induction k as [| k IH]; intros a; cbn; [reflexivity|].
  now rewrite IH.
Qed.

Lemma row_count_arith first last k :
  28 ≤ last - first + 1 ≤ 31 →
  last + 6 - (last + 4) mod 7 - (first - (first + 4) mod 7) + 1
    = 7 * Z.of_nat k →
  Z.of_nat k = ((first + 4) mod 7 + (last - first + 1) + 6) / 7 ∧
  (4 ≤ k ≤ 6)%nat ∧
  (k = 4%nat ↔ last - first + 1 = 28 ∧ (first + 4) mod 7 = 0).
Proof.
  intros Hdim Hk.
  assert (Hkk : Z.of_nat k
                = ((first + 4) mod 7 + (last - first + 1) + 6) / 7)
    by (Z.to_euclidean_division_equations; lia).
  split; [exact Hkk|]. clear Hkk.
  split; [Z.to_euclidean_division_equations; lia|].
  split; [intros H4 | intros [H28 H0]];
    Z.to_euclidean_division_equations; lia.
Qed.

End GridMore.

(** X15.  The number of rows of the grid: the weekday of the 1st plus the
    number of days of the month, in whole weeks rounded up.  There are
    four, five or six rows, and four only for a month of 28 days that
    starts on a Sunday. *)
Theorem calendarDays_row_count (t : Z) (fuel : nat) :
  valid_month (YearFromTime t) (MonthFromTime t) →
  (7 ≤ fuel)%nat →
  let y := YearFromTime t in
  let m := MonthFromTime t in
  let weekdayOfFirst := WeekDay (MakeDay y m 1 * msPerDay) in
  ∃ rows,
    calendarDays fuel (Time t) = Some rows ∧
    Z.of_nat (length rows) = ((weekdayOfFirst + daysInMonth y m + 6) / 7)%Z ∧
    (4 ≤ length rows ≤ 6)%nat ∧
    (length rows = 4%nat ↔ daysInMonth y m = 28%Z ∧ weekdayOfFirst = 0%Z).
Proof.
  intros Hv Hfuel y m weekdayOfFirst.
  destruct (calendarDays_rows t fuel Hv Hfuel) as (Hcal & Hk & _).
  destruct Hv as [_ Hm].
  pose proof (daysInMonth_range y m Hm) as Hdim.
  eexists. split; [exact Hcal|]. rewrite week_rows_length.
  unfold weekdayOfFirst, WeekDay. rewrite Day_midnight.
  rewrite gridStart_eq, gridEnd_eq in Hk. rewrite daysInMonth_eq in *.
  exact (row_count_arith (MakeDay y m 1) (MakeDay y (m + 1) 0) _ Hdim Hk).
Qed.

Lemma calendarDays_row_count_witness :
  let y := YearFromTime 1762128012345 in
  let m := MonthFromTime 1762128012345 in
  let weekdayOfFirst := WeekDay (MakeDay y m 1 * msPerDay) in
  ∃ rows,
    calendarDays 7 (Time 1762128012345) = Some rows ∧
    Z.of_nat (length rows) = ((weekdayOfFirst + daysInMonth y m + 6) / 7)%Z ∧
    (4 ≤ length rows ≤ 6)%nat ∧
    (length rows = 4%nat ↔ daysInMonth y m = 28%Z ∧ weekdayOfFirst = 0%Z).
Proof.
  apply (calendarDays_row_count 1762128012345 7).
  - unfold valid_month. vm_compute. repeat split; discriminate.
  - lia.
Defined.

Section MonthCells.
Local Open Scope Z_scope.

Lemma filter_all_false {A : Type} (p : A → bool) (l : list A) :
  (∀ x, x ∈ l → p x = false) → List.filter p l = [].
Proof.
  induction l as [| x l IH]; intros H; [reflexivity|]. cbn.
  rewrite (H x) by left. apply IH. intros y Hy. apply H. now right.
Qed.

Lemma filter_all_true {A : Type} (p : A → bool) (l : list A) :
  (∀ x, x ∈ l → p x = true) → List.filter p l = l.
Proof.
  induction l as [| x l IH]; intros H; [reflexivity|]. cbn.
  rewrite (H x) by left. f_equal. apply IH. intros y Hy. apply H. now right.
Qed.

Lemma filter_fmap {A B : Type} (f : A → B) (p : B → bool) (l : list A) :
  List.filter p (f <$> l) = f <$> List.filter (fun x => p (f x)) l.
Proof.
  induction l as [| x l IH]; [reflexivity|]. cbn.
  destruct (p (f x)); cbn; now rewrite IH.
Qed.

Lemma filter_seqZ_range (p : Z → bool) s n lo hi :
  s ≤ lo → lo ≤ hi + 1 → hi < s + n →
  (∀ d, s ≤ d < s + n → (p d = true ↔ lo ≤ d ≤ hi)) →
  List.filter p (seqZ s n) = seqZ lo (hi - lo + 1).
Proof.
  intros Hlo Hmid Hhi Hp.
  replace n with ((lo - s) + ((hi - lo + 1) + (s + n - hi - 1))) by lia.
  rewrite !seqZ_app by lia. rewrite !List.filter_app.
  replace (s + (lo - s)) with lo by lia.
  rewrite (filter_all_false p (seqZ s (lo - s))),
          (filter_all_true p (seqZ lo (hi - lo + 1))),
          (filter_all_false p (seqZ (lo + (hi - lo + 1)) (s + n - hi - 1))).
  - now rewrite app_nil_r.
  - intros d Hd. apply elem_of_seqZ in Hd.
    apply not_true_is_false. rewrite Hp by lia. lia.
  - intros d Hd. apply elem_of_seqZ in Hd. apply Hp; lia.
  - intros d Hd. apply elem_of_seqZ in Hd.
    apply not_true_is_false. rewrite Hp by lia. lia.
Qed.

Lemma isSameMonth_midnight d t :
  0 ≤ MonthFromTime t ≤ 11 →
  isSameMonth (midnight d) (Time t) = true ↔
  MakeDay (YearFromTime t) (MonthFromTime t) 1 ≤ d
    ≤ MakeDay (YearFromTime t) (MonthFromTime t + 1) 0.
Proof.
  intros Hm. rewrite (month_days _ _ d Hm).
  unfold isSameMonth, midnight. cbn [getFullYear getMonth].
  unfold YearFromTime at 1, MonthFromTime at 1. rewrite Day_midnight.
  rewrite andb_true_iff, !Z.eqb_eq. reflexivity.
Qed.

End MonthCells.

(** X16.  The cells of the grid that belong to the displayed month, which are
    the cells that react to a click, are the days of the month from the
    1st to the last, once each and in order. *)
Theorem calendarDays_cells_of_month (t : Z) (fuel : nat) :
  valid_month (YearFromTime t) (MonthFromTime t) →
  (7 ≤ fuel)%nat →
  let y := YearFromTime t in
  let m := MonthFromTime t in
  ∃ rows,
    calendarDays fuel (Time t) = Some rows ∧
    List.filter (fun day => isSameMonth day (Time t)) (concat rows)
    = midnight <$> seqZ (MakeDay y m 1) (daysInMonth y m) ∧
    (∀ day, day ∈ concat rows → isSameMonth day (Time t) = false →
            cellClick (Time t) day = None).
Proof.
  intros Hv Hfuel y m. subst y m.
  destruct (calendarDays_rows t fuel Hv Hfuel) as (Hcal & Hk & Hs & He).
  eexists. split; [exact Hcal|]. split.
  - rewrite week_rows_concat, <- Hk, filter_fmap. f_equal.
    rewrite daysInMonth_eq.
    pose proof (daysInMonth_range (YearFromTime t) _ (proj2 Hv)) as Hdim.
    rewrite daysInMonth_eq in Hdim.
    apply filter_seqZ_range; try lia.
    intros d _. apply isSameMonth_midnight, Hv.
  - intros day _ Hout. unfold cellClick. now rewrite Hout.
Qed.

Lemma calendarDays_cells_of_month_witness :
  let y := YearFromTime 1762128012345 in
  let m := MonthFromTime 1762128012345 in
  ∃ rows,
    calendarDays 7 (Time 1762128012345) = Some rows ∧
    List.filter (fun day => isSameMonth day (Time 1762128012345)) (concat rows)
    = midnight <$> seqZ (MakeDay y m 1) (daysInMonth y m) ∧
    (∀ day, day ∈ concat rows →
            isSameMonth day (Time 1762128012345) = false →
            cellClick (Time 1762128012345) day = None).
Proof.
  apply (calendarDays_cells_of_month 1762128012345 7).
  - unfold valid_month. vm_compute. repeat split; discriminate.
  - lia.
Defined.

(** ** Month navigation *)

Section AddMonths.
Local Open Scope Z_scope.

Lemma MakeDay_carry y q r dt :
  MakeDay y (12 * q + r) dt = MakeDay (y + q) r dt.
Proof.
  unfold MakeDay.
  replace ((12 * q + r) / 12) with (q + r / 12)
    by (Z.to_euclidean_division_equations; lia).
  replace ((12 * q + r) mod 12) with (r mod 12)
    by (Z.to_euclidean_division_equations; lia).
  now rewrite Z.add_assoc.
Qed.

Lemma daysInMonth_table y m :
  0 ≤ m ≤ 11 →
  daysInMonth y m
  = monthStart (m + 1) (InLeapYearOf y) - monthStart m (InLeapYearOf y).
Proof.
  intros Hm. rewrite daysInMonth_eq, MakeDay_first, MakeDay_last by assumption.
  lia.
Qed.

(** Day 0 of the month after month [M] is the last day of month [M], the
    month index being carried into the year. *)
Lemma MakeDay_end_of_month y M :
  MakeDay y (M + 1) 0
  = MakeDay (y + M / 12) (M mod 12) (daysInMonth (y + M / 12) (M mod 12)).
Proof.
  pose proof (Z.mod_pos_bound M 12 ltac:(lia)) as Hr.
  replace (M + 1) with (12 * (M / 12) + (M mod 12 + 1))
    by (pose proof (Z.div_mod M 12 ltac:(lia)); lia).
  rewrite MakeDay_carry, daysInMonth_eq.
  rewrite (MakeDay_month (M mod 12) (y + M / 12)
             (MakeDay (y + M / 12) (M mod 12 + 1) 0
              - MakeDay (y + M / 12) (M mod 12) 1 + 1)) by lia.
  rewrite (MakeDay_first (y + M / 12) (M mod 12)) by lia. lia.
Qed.

Lemma civil_of_time a τ y m dt :
  0 ≤ τ < msPerDay → 0 ≤ m ≤ 11 → 1 ≤ dt ≤ daysInMonth y m →
  a = MakeDay y m dt →
  YearFromTime (MakeDate a τ) = y ∧ MonthFromTime (MakeDate a τ) = m
  ∧ DateFromTime (MakeDate a τ) = dt
  ∧ TimeWithinDay (MakeDate a τ) = τ.
Proof.
  intros Hτ Hm Hdt ->. rewrite daysInMonth_table in Hdt by assumption.
  destruct (Day_MakeDate (MakeDay y m dt) τ Hτ) as [HD HT].
  destruct (civil_of_MakeDay y m dt Hm Hdt) as (Hy & Hmo & Hd).
  unfold YearFromTime, MonthFromTime, DateFromTime. rewrite HD. auto.
Qed.

Lemma month_day_in_range y m dt :
  -271820 ≤ y ≤ 275759 → 0 ≤ m ≤ 11 → 1 ≤ dt ≤ daysInMonth y m →
  day_in_range (MakeDay y m dt).
Proof.
  intros Hy Hm Hdt. rewrite daysInMonth_table in Hdt by assumption.
  rewrite MakeDay_month by assumption.
  pose proof (DayFromYear_valid y Hy) as [Hlo Hhi].
  pose proof (DayFromYear_succ y) as Hsucc.
  assert (Hl : 0 ≤ InLeapYearOf y ≤ 1)
    by (destruct (InLeapYearOf_cases y); lia).
  pose proof (monthStart_mono m _ Hl Hm) as [Hms1 Hms2].
  assert (Hleap : InLeapYearOf y = DaysInYear y - 365) by reflexivity.
  unfold day_in_range. lia.
Qed.

(** [addMonths]: the month index is carried into the year, the date is
    kept unless the new month is shorter, the time of day is kept. *)
Lemma addMonths_time t amount :
  amount ≠ 0 →
  let M := MonthFromTime t + amount in
  let y' := YearFromTime t + M / 12 in
  let m' := M mod 12 in
  -271820 ≤ y' ≤ 275759 →
  addMonths (Time t) amount =
  Time (MakeDate
          (MakeDay y' m' (Z.min (DateFromTime t) (daysInMonth y' m')))
          (TimeWithinDay t)).
Proof.
  intros Hne M y' m' Hy'.
  pose proof (Z.mod_pos_bound M 12 ltac:(lia)) as Hm'. fold m' in Hm'.
  assert (Hm'' : 0 ≤ m' ≤ 11) by lia.
  pose proof (daysInMonth_range y' m' Hm'') as Hdim.
  pose proof (TimeWithinDay_range t) as Hτ.
  pose proof (DateFromDay_pos (Day t)) as Hdom. fold (DateFromTime t) in Hdom.
  unfold addMonths. destruct (Z.eqb_spec amount 0) as [| _]; [contradiction|].
  cbn [getDate getMonth setMonth]. fold M.
  rewrite MakeDay_end_of_month. fold y' m'.
  set (E := MakeDay y' m' (daysInMonth y' m')).
  assert (HE : day_in_range E) by (apply month_day_in_range; lia).
  rewrite TimeClip_day by assumption. cbn [getDate getFullYear getMonth].
  destruct (civil_of_time E (TimeWithinDay t) y' m' (daysInMonth y' m') Hτ Hm''
              ltac:(lia) eq_refl) as (-> & -> & -> & _).
  destruct (Z.leb_spec (daysInMonth y' m') (DateFromTime t)) as [Hle | Hgt].
  - rewrite Z.min_r by assumption. reflexivity.
  - rewrite Z.min_l by lia. cbn [setFullYear].
    apply TimeClip_day; [| assumption]. apply month_day_in_range; lia.
Qed.

End AddMonths.

Section Navigation.
Local Open Scope Z_scope.

Lemma addMonths_fields t amount :
  amount ≠ 0 →
  let M := MonthFromTime t + amount in
  let y' := YearFromTime t + M / 12 in
  let m' := M mod 12 in
  -271820 ≤ y' ≤ 275759 →
  ∃ t', addMonths (Time t) amount = Time t'
        ∧ YearFromTime t' = y' ∧ MonthFromTime t' = m'
        ∧ DateFromTime t' = Z.min (DateFromTime t) (daysInMonth y' m')
        ∧ TimeWithinDay t' = TimeWithinDay t.
Proof.
  intros Hne M y' m' Hy'.
  pose proof (Z.mod_pos_bound M 12 ltac:(lia)) as Hm'. fold m' in Hm'.
  assert (Hm'' : 0 ≤ m' ≤ 11) by lia.
  pose proof (daysInMonth_range y' m' Hm'') as Hdim.
  pose proof (DateFromDay_pos (Day t)) as Hdom. fold (DateFromTime t) in Hdom.
  eexists. split; [apply addMonths_time; assumption|].
  fold M y' m'.
  apply civil_of_time; auto using TimeWithinDay_range. lia.
Qed.

Lemma next_month_index m :
  0 ≤ m ≤ 11 →
  (m + 1) / 12 = (if m =? 11 then 1 else 0)
  ∧ (m + 1) mod 12 = (if m =? 11 then 0 else m + 1).
Proof.
  intros Hm. destruct (Z.eqb_spec m 11) as [-> | Hne]; [split; reflexivity|].
  rewrite Z.div_small, Z.mod_small by lia. auto.
Qed.

Lemma prev_month_index m :
  0 ≤ m ≤ 11 →
  (m + -1) / 12 = (if m =? 0 then -1 else 0)
  ∧ (m + -1) mod 12 = (if m =? 0 then 11 else m - 1).
Proof.
  intros Hm. destruct (Z.eqb_spec m 0) as [-> | Hne]; [split; reflexivity|].
  rewrite Z.div_small, Z.mod_small by lia. split; lia.
Qed.

End Navigation.

Lemma next_month_year_month (t : Z) :
  let y := YearFromTime t in
  let m := MonthFromTime t in
  let y' := if (m =? 11)%Z then (y + 1)%Z else y in
  (-271820 ≤ y' ≤ 275759)%Z →
  ∃ t', addMonths (Time t) 1 = Time t'
        ∧ YearFromTime t' = y'
        ∧ MonthFromTime t' = if (m =? 11)%Z then 0%Z else (m + 1)%Z.
Proof.
  intros y m y' Hy'.
  pose proof (MonthFromDay_range (Day t)) as Hm. fold (MonthFromTime t) in Hm.
  destruct (next_month_index (MonthFromTime t) Hm) as [Hq Hr].
  destruct (addMonths_fields t 1 ltac:(lia)) as (t' & Ha & Hy1 & Hm1 & _).
  - rewrite Hq. subst y' y m.
    destruct (MonthFromTime t =? 11)%Z; [lia|]. now rewrite Z.add_0_r.
  - exists t'. split; [exact Ha|]. rewrite Hq in Hy1. rewrite Hr in Hm1.
    subst y' y m. split; [| exact Hm1].
    destruct (MonthFromTime t =? 11)%Z; [exact Hy1|].
    now rewrite Z.add_0_r in Hy1.
Qed.

Lemma prev_month_year_month (t : Z) :
  let y := YearFromTime t in
  let m := MonthFromTime t in
  let y' := if (m =? 0)%Z then (y - 1)%Z else y in
  (-271820 ≤ y' ≤ 275759)%Z →
  ∃ t', addMonths (Time t) (-1) = Time t'
        ∧ YearFromTime t' = y'
        ∧ MonthFromTime t' = if (m =? 0)%Z then 11%Z else (m - 1)%Z.
Proof.
  intros y m y' Hy'.
  pose proof (MonthFromDay_range (Day t)) as Hm. fold (MonthFromTime t) in Hm.
  destruct (prev_month_index (MonthFromTime t) Hm) as [Hq Hr].
  destruct (addMonths_fields t (-1) ltac:(lia)) as (t' & Ha & Hy1 & Hm1 & _).
  - rewrite Hq. subst y' y m.
    destruct (MonthFromTime t =? 0)%Z; [lia|]. now rewrite Z.add_0_r.
  - exists t'. split; [exact Ha|]. rewrite Hq in Hy1. rewrite Hr in Hm1.
    subst y' y m. split; [| exact Hm1].
    destruct (MonthFromTime t =? 0)%Z; [exact Hy1|].
    now rewrite Z.add_0_r in Hy1.
Qed.

(** X17.  [handleNextMonth] moves the calendar to the following month, from
    December to January of the next year, and clears the selection.  The
    day of the month is kept unless the new month is shorter, and then it
    is its last day; the time of day is kept. *)
Theorem handleNextMonth_next_month (t : Z) :
  let y := YearFromTime t in
  let m := MonthFromTime t in
  let y' := if (m =? 11)%Z then (y + 1)%Z else y in
  let m' := if (m =? 11)%Z then 0%Z else (m + 1)%Z in
  (-271820 ≤ y' ≤ 275759)%Z →
  ∃ t', handleNextMonth (Time t) = (Time t', None)
        ∧ YearFromTime t' = y' ∧ MonthFromTime t' = m'
        ∧ DateFromTime t' = Z.min (DateFromTime t) (daysInMonth y' m')
        ∧ TimeWithinDay t' = TimeWithinDay t.
Proof.
  intros y m y' m' Hy'.
  pose proof (MonthFromDay_range (Day t)) as Hm. fold (MonthFromTime t) in Hm.
  destruct (next_month_index (MonthFromTime t) Hm) as [Hq Hr].
  destruct (addMonths_fields t 1 ltac:(lia)) as (t' & Ha & Hf).
  - rewrite Hq. subst y' y m.
    destruct (MonthFromTime t =? 11)%Z; [lia|]. now rewrite Z.add_0_r.
  - exists t'. unfold handleNextMonth. rewrite Ha. split; [reflexivity|].
    rewrite Hq, Hr in Hf. subst y' m' y m.
    destruct (MonthFromTime t =? 11)%Z; [exact Hf|].
    now rewrite Z.add_0_r in Hf.
Qed.

Lemma handleNextMonth_next_month_witness :
  let t := 1767139200000%Z in
  let y := YearFromTime t in
  let m := MonthFromTime t in
  let y' := if (m =? 11)%Z then (y + 1)%Z else y in
  let m' := if (m =? 11)%Z then 0%Z else (m + 1)%Z in
  ∃ t', handleNextMonth (Time t) = (Time t', None)
        ∧ YearFromTime t' = y' ∧ MonthFromTime t' = m'
        ∧ DateFromTime t' = Z.min (DateFromTime t) (daysInMonth y' m')
        ∧ TimeWithinDay t' = TimeWithinDay t.
Proof.
  apply (handleNextMonth_next_month 1767139200000).
  vm_compute. split; discriminate.
Defined.

(** X18.  [handlePrevMonth] moves the calendar to the preceding month, from
    January to December of the year before, and clears the selection, with
    the same rule for the day of the month and the time of day. *)
Theorem handlePrevMonth_previous_month (t : Z) :
  let y := YearFromTime t in
  let m := MonthFromTime t in
  let y' := if (m =? 0)%Z then (y - 1)%Z else y in
  let m' := if (m =? 0)%Z then 11%Z else (m - 1)%Z in
  (-271820 ≤ y' ≤ 275759)%Z →
  ∃ t', handlePrevMonth (Time t) = (Time t', None)
        ∧ YearFromTime t' = y' ∧ MonthFromTime t' = m'
        ∧ DateFromTime t' = Z.min (DateFromTime t) (daysInMonth y' m')
        ∧ TimeWithinDay t' = TimeWithinDay t.
Proof.
  intros y m y' m' Hy'.
  pose proof (MonthFromDay_range (Day t)) as Hm. fold (MonthFromTime t) in Hm.
  destruct (prev_month_index (MonthFromTime t) Hm) as [Hq Hr].
  destruct (addMonths_fields t (-1) ltac:(lia)) as (t' & Ha & Hf).
  - rewrite Hq. subst y' y m.
    destruct (MonthFromTime t =? 0)%Z; [lia|]. now rewrite Z.add_0_r.
  - exists t'. unfold handlePrevMonth, subMonths.
    change (- (1))%Z with (-1)%Z. rewrite Ha. split; [reflexivity|].
    rewrite Hq, Hr in Hf. subst y' m' y m.
    destruct (MonthFromTime t =? 0)%Z; [exact Hf|].
    now rewrite Z.add_0_r in Hf.
Qed.

Lemma handlePrevMonth_previous_month_witness :
  let t := 1767571200000%Z in
  let y := YearFromTime t in
  let m := MonthFromTime t in
  let y' := if (m =? 0)%Z then (y - 1)%Z else y in
  let m' := if (m =? 0)%Z then 11%Z else (m - 1)%Z in
  ∃ t', handlePrevMonth (Time t) = (Time t', None)
        ∧ YearFromTime t' = y' ∧ MonthFromTime t' = m'
        ∧ DateFromTime t' = Z.min (DateFromTime t) (daysInMonth y' m')
        ∧ TimeWithinDay t' = TimeWithinDay t.
Proof.
  apply (handlePrevMonth_previous_month 1767571200000).
  vm_compute. split; discriminate.
Defined.

(** X19.  Next and then Previous, or Previous and then Next, show the grid
    of the month one started from. *)
Theorem month_navigation_returns (t : Z) (fuel : nat) :
  (-271819 ≤ YearFromTime t ≤ 275758)%Z →
  (7 ≤ fuel)%nat →
  calendarDays fuel (handlePrevMonth (handleNextMonth (Time t)).1).1
    = calendarDays fuel (Time t) ∧
  calendarDays fuel (handleNextMonth (handlePrevMonth (Time t)).1).1
    = calendarDays fuel (Time t).
Proof.
  intros Hy Hfuel.
  pose proof (MonthFromDay_range (Day t)) as Hm. fold (MonthFromTime t) in Hm.
  assert (Hsame : ∀ t2, YearFromTime t2 = YearFromTime t →
                        MonthFromTime t2 = MonthFromTime t →
                        calendarDays fuel (Time t2) = calendarDays fuel (Time t)).
  { intros t2 Hy2 Hm2.
    destruct (calendarDays_rows t fuel) as (-> & _);
      [split; [lia | exact Hm] | exact Hfuel |].
    destruct (calendarDays_rows t2 fuel) as (-> & _);
      [rewrite Hy2, Hm2; split; [lia | exact Hm] | exact Hfuel |].
    now rewrite Hy2, Hm2. }
  unfold handleNextMonth, handlePrevMonth, subMonths.
  change (- (1))%Z with (-1)%Z. cbn [fst]. split.
  - destruct (next_month_year_month t) as (t1 & -> & Hy1 & Hm1);
      [destruct (MonthFromTime t =? 11)%Z; lia|].
    destruct (prev_month_year_month t1) as (t2 & -> & Hy2 & Hm2);
      [rewrite Hy1; destruct (MonthFromTime t1 =? 0)%Z,
                             (MonthFromTime t =? 11)%Z; lia|].
    apply Hsame.
    + rewrite Hy2, Hy1, Hm1.
      destruct (Z.eqb_spec (MonthFromTime t) 11); cbn; [lia|].
      destruct (Z.eqb_spec (MonthFromTime t + 1) 0); lia.
    + rewrite Hm2, Hm1.
      destruct (Z.eqb_spec (MonthFromTime t) 11) as [-> |]; cbn; [lia|].
      destruct (Z.eqb_spec (MonthFromTime t + 1) 0); lia.
  - destruct (prev_month_year_month t) as (t1 & -> & Hy1 & Hm1);
      [destruct (MonthFromTime t =? 0)%Z; lia|].
    destruct (next_month_year_month t1) as (t2 & -> & Hy2 & Hm2);
      [rewrite Hy1; destruct (MonthFromTime t1 =? 11)%Z,
                             (MonthFromTime t =? 0)%Z; lia|].
    apply Hsame.
    + rewrite Hy2, Hy1, Hm1.
      destruct (Z.eqb_spec (MonthFromTime t) 0); cbn; [lia|].
      destruct (Z.eqb_spec (MonthFromTime t - 1) 11); lia.
    + rewrite Hm2, Hm1.
      destruct (Z.eqb_spec (MonthFromTime t) 0) as [-> |]; cbn; [lia|].
      destruct (Z.eqb_spec (MonthFromTime t - 1) 11); lia.
Qed.

Lemma month_navigation_returns_witness :
  calendarDays 7 (handlePrevMonth (handleNextMonth (Time 1767139200000)).1).1
    = calendarDays 7 (Time 1767139200000) ∧
  calendarDays 7 (handleNextMonth (handlePrevMonth (Time 1767139200000)).1).1
    = calendarDays 7 (Time 1767139200000).
Proof.
  apply (month_navigation_returns 1767139200000 7).
  - vm_compute. split; discriminate.
  - lia.
Defined.

(** ** The reachable event lists *)

Section Reachable.
Variable parseISO : string → Date.
Variable toISOString : Date → string.
Variable mockUser : Attendee.t.

Lemma rsvp_preserves_wellFormed eventId event :
  wellFormedEvent event → wellFormedEvent (rsvp mockUser eventId event).1.
Proof.
  intros [Hnd Hcap]. rewrite rsvp_fst.
  destruct (String.eqb (Event.id event) eventId); [| now split].
  destruct (existsb (isMockUser mockUser) (Event.attendees event)) eqn:Hatt.
  - split.
    + unfold no_duplicate_ids. cbn. now apply NoDup_fmap_filter.
    + intros z Hz. cbn in Hz. destruct (Hcap z Hz) as [H1 Hle].
      split; [exact H1|]. cbn.
      pose proof (filter_length_le
                    (fun a => negb (isMockUser mockUser a))
                    (Event.attendees event)). lia.
  - destruct (isFull event) eqn:Hfull; [now split|]. split.
    + unfold no_duplicate_ids in *. cbn. rewrite fmap_app. cbn.
      apply NoDup_app. split_and!; [assumption | | apply NoDup_singleton].
      intros x Hx Hx'. apply list_elem_of_singleton in Hx'. subst x.
      apply list_elem_of_fmap in Hx as (a & Ha & Hin).
      assert (isMember mockUser event) as Hmem by (exists a; auto).
      apply isAttending_spec in Hmem. congruence.
    + intros z Hz. cbn in Hz. destruct (Hcap z Hz) as [H1 Hle].
      split; [exact H1|]. cbn. rewrite length_app. cbn.
      unfold isFull in Hfull. rewrite Hz in Hfull. cbn in Hfull.
      destruct (Z.eqb_spec z 0); [lia|]. cbn in Hfull.
      apply Z.leb_gt in Hfull. lia.
Qed.

Lemma applyAction_preserves_wellFormed st a :
  Forall wellFormedEvent (events st) →
  Forall wellFormedEvent (events (applyAction parseISO toISOString mockUser st a)).
Proof.
  intros Hwf. destruct a as [eventId | f now now' nowId]; cbn [applyAction].
  - rewrite handleRsvp_events. apply Forall_fmap.
    eapply Forall_impl; [exact Hwf|]. intros event. cbn.
    apply rsvp_preserves_wellFormed.
  - rewrite handleSubmit_eq, validateForm_eq. cbn [fst snd].
    destruct (allAccepted parseISO now now' f) eqn:Hok; [| exact Hwf].
    apply bool_decide_eq_true in Hok as (_ & Hdate & _ & Hmax).
    unfold handleAddEvent. cbn [submittedData NewEventData.date].
    destruct (isValid (parseISO (AddEventForm.date f))); cbn [negb events];
      [| exact Hwf].
    apply Forall_app. split; [exact Hwf|]. constructor; [| constructor].
    split.
    + unfold no_duplicate_ids. cbn. apply NoDup_singleton.
    + cbn. intros z Hz. unfold maxAttendeesError in Hmax.
      destruct (truthy_str (AddEventForm.maxAttendees f)); [| discriminate].
      injection Hz as Hz. rewrite Hz in Hmax. cbn in Hmax.
      destruct (Z.leb_spec z 0); [discriminate | lia].
Qed.

Lemma run_preserves_wellFormed actions : ∀ st,
  Forall wellFormedEvent (events st) →
  Forall wellFormedEvent (events (run parseISO toISOString mockUser actions st)).
Proof.
  induction actions as [| a actions IH]; intros st Hwf; [exact Hwf|].
  cbn [run foldl]. apply IH, applyAction_preserves_wellFormed, Hwf.
Qed.

End Reachable.

Lemma initialEvents_wellFormed (toISOString : Date → string) (now : Z) :
  Forall wellFormedEvent (initialEvents toISOString now).
Proof.
  unfold initialEvents.
  repeat (apply List.Forall_cons; [split |]); try apply List.Forall_nil;
    try (unfold no_duplicate_ids; cbn [fmap list_fmap Event.attendees
                                       Attendee.id user1];
         apply (bool_decide_unpack _); vm_compute; exact I);
    cbn [Event.maxAttendees Event.attendees length];
    intros z Hz; try discriminate Hz; injection Hz as <-; lia.
Qed.

(** X20.  In every state that RSVP clicks and form submissions can reach, from
    the initial events or from any list of this kind, no event has two
    attendees with the same id, and a [maxAttendees] that is an integer is
    at least one and is not exceeded by the number of attendees. *)
Theorem reachable_events_wellFormed (parseISO : string → Date)
    (toISOString : Date → string) (actions : list Action) :
  (∀ now,
     Forall wellFormedEvent
       (events (run parseISO toISOString user1 actions
                    (initialState toISOString now)))) ∧
  (∀ mockUser st,
     Forall wellFormedEvent (events st) →
     Forall wellFormedEvent
       (events (run parseISO toISOString mockUser actions st))).
Proof.
  split.
  - intros now. apply run_preserves_wellFormed. cbn.
    apply initialEvents_wellFormed.
  - intros mockUser st. apply run_preserves_wellFormed.
Qed.
